(** * The rate-limited Reddit client of reddit-tracker (package [api])

    A shallow embedding of the package's source: the token-bucket rate
    limiter ([TokenBucket], [NewTokenBucket], [Take], [TakeWithTimeout],
    [Update]) and the API client built on it ([RedditAPI],
    [authenticate], [FetchPosts], [updateRateLimits], [getHeaderAsInt]),
    with the [Post] record of package [models].

    Modelling conventions.
    - Go's [int] and [int64] are [Z]; where the source multiplies, the
      64-bit wrap-around is written out ([wrap64]).
    - [float64] is idealised as the exact rationals [Qc]: rounding is not
      modelled.  A division whose divisor is zero produces a non-finite
      value in Go; it is [None] here ([float64_div]), and converting a
      non-finite or out-of-range value to [int64] gives whatever the
      platform gives ([f2i_undefined]).
    - [time.Time] and [time.Duration] are nanosecond counts in [Z].
    - The mutexes are not modelled: every function is run to completion
      by one goroutine.
    - Everything a function does to the outside world goes through [Env]:
      the clock, the replies of the network, and a trace of the sleeps,
      log lines and HTTP exchanges performed so far. *)

From Stdlib Require Import ZArith QArith Qcanon Qround Qpower Lia Lqa.
From Stdlib Require Import Ascii String.
From stdpp Require Import base numbers gmap strings list pretty.

Local Open Scope Z_scope.

(** ** Numbers *)

Definition min_int64 : Z := - 2 ^ 63.
Definition max_int64 : Z := 2 ^ 63 - 1.

Definition in_int64 (n : Z) : Prop := min_int64 <= n <= max_int64.

(** Two's-complement wrap-around of a 64-bit signed result. *)
Definition wrap64 (n : Z) : Z := (n + 2 ^ 63) mod 2 ^ 64 - 2 ^ 63.

Definition float64_of_int (n : Z) : Qc := Qc_of_Z n.

(** [x / y] on float64: non-finite ([None]) when the divisor is zero. *)
Definition float64_div (x y : Qc) : option Qc :=
  if decide (y = 0%Qc) then None else Some (x / y)%Qc.

(** The integer part of a rational, rounding toward zero. *)
Definition Qc_trunc (x : Qc) : Z := Z.quot (Qnum x) (Zpos (Qden x)).

Definition Qc_min (x y : Qc) : Qc := if decide (x ≤ y)%Qc then x else y.

(** What the Go libraries and the platform contribute: the result of an
    undefined float-to-integer conversion, the JSON decoders of the two
    response envelopes, and whether [http.NewRequest] accepts a URL. *)
Record authResp := {
  AccessToken : string;
  ExpiresIn : Z;
  TokenType : string
}.

Record RedditPostData := {
  rp_ID : string;
  rp_Name : string;
  rp_Title : string;
  rp_Author : string;
  rp_Subreddit : string;
  rp_URL : string;
  rp_CreatedUTC : Qc;
  rp_Ups : Z;
  rp_Downs : Z;
  rp_Score : Z;
  rp_NumComments : Z;
  rp_PostHint : string;
  rp_IsVideo : bool;
  rp_IsSelf : bool;
  rp_SelfText : string;
  rp_Permalink : string
}.

Record RedditPost := {
  rp_Kind : string;
  rp_Data : RedditPostData
}.

Record RedditResponse := {
  rr_Kind : string;
  rr_After : string;
  rr_Before : string;
  rr_Children : list RedditPost
}.

Class GoRuntime := {
  f2i_undefined : option Qc → Z;
  json_decode_auth : string → option authResp;
  json_decode_listing : string → option RedditResponse;
  url_parses : string → bool
}.

(** [int64(x)] for a float64 [x]: truncation toward zero when the result
    is representable, implementation-dependent otherwise. *)
Definition int64_of_float64 {rt : GoRuntime} (x : option Qc) : Z :=
  match x with
  | Some q =>
      if decide (in_int64 (Qc_trunc q)) then Qc_trunc q else f2i_undefined x
  | None => f2i_undefined x
  end.

(** ** Time *)

Definition Duration := Z.
Definition Time := Z.
Bind Scope Z_scope with Duration Time.

Definition Second : Duration := 1000000000.

(** [d.Seconds()] *)
Definition Seconds (d : Duration) : Qc := (Qc_of_Z d / Qc_of_Z Second)%Qc.

(** [t.Sub(u)], away from the saturation bounds of [Duration]. *)
Definition Sub (t u : Time) : Duration := t - u.

(** The zero [time.Time] (January 1, year 1 UTC) in Unix nanoseconds. *)
Definition zeroTime : Time := - 62135596800 * Second.

(** [time.Unix(sec, 0)] *)
Definition Unix (sec : Z) : Time := sec * Second.

(** ** The outside world *)

Inductive Level := DebugLevel | InfoLevel | WarnLevel | ErrorLevel.

Record Request := {
  Method : string;
  URL : string;
  ReqBody : string;
  BasicAuth : option (string * string);
  ReqHeader : gmap string string
}.

Record Response := {
  StatusCode : Z;
  Header : gmap string (list string);
  Body : string
}.

Inductive Event :=
  | EvSleep (d : Duration)
  | EvLog (lvl : Level) (msg : string)
  | EvDo (req : Request) (res : option Response).

(** [clock] is the current reading of [time.Now()].  [oversleep] lists by
    how much the coming calls of [time.Sleep] overrun; [network] lists
    the outcome of the coming HTTP exchanges, each with the time it
    takes ([None] is a transport error).  [trace] has the newest event
    first. *)
Record Env := {
  clock : Time;
  oversleep : list N;
  network : list (N * option Response);
  trace : list Event
}.

Definition M (A : Type) : Type := Env → A * Env.

Definition ret {A} (a : A) : M A := λ e, (a, e).

Definition bind {A B} (m : M A) (k : A → M B) : M B :=
  λ e, let (a, e') := m e in k a e'.

Notation "'do' x <- m ; k" := (bind m (λ x, k))
  (at level 10, x name, m at level 100, k at level 200, only parsing).
Notation "'do' ' p <- m ; k" := (bind m (λ x, match x with p => k end))
  (at level 10, p strict pattern, m at level 100, k at level 200,
   only parsing).
Notation "'run' m ; k" := (bind m (λ _, k))
  (at level 10, m at level 100, k at level 200, only parsing).

Definition record (ev : Event) : M unit := λ e,
  (tt, {| clock := clock e; oversleep := oversleep e;
          network := network e; trace := ev :: trace e |}).

Definition time_Now : M Time := λ e, (clock e, e).

(** Time passing outside the program. *)
Definition elapse (d : N) : M unit := λ e,
  (tt, {| clock := clock e + Z.of_N d; oversleep := oversleep e;
          network := network e; trace := trace e |}).

(** [time.Sleep(d)] pauses for at least [d]; a negative or zero [d]
    returns at once. *)
Definition time_Sleep (d : Duration) : M unit := λ e,
  (tt, {| clock := clock e + Z.max 0 d + Z.of_N (hd 0%N (oversleep e));
          oversleep := tl (oversleep e);
          network := network e;
          trace := EvSleep d :: trace e |}).

Definition log (lvl : Level) (msg : string) : M unit := record (EvLog lvl msg).

(** [httpClient.Do(req)] *)
Definition http_Do (req : Request) : M (option Response) := λ e,
  match network e with
  | [] =>
      (None, {| clock := clock e; oversleep := oversleep e;
                network := []; trace := EvDo req None :: trace e |})
  | (lat, res) :: rest =>
      (res, {| clock := clock e + Z.of_N lat; oversleep := oversleep e;
               network := rest; trace := EvDo req res :: trace e |})
  end.

(** ** The token bucket *)

Record TokenBucket := {
  capacity : Z;
  tokens : Qc;
  fillRate : Qc;
  lastRefill : Time;
  waitTimeout : Duration
}.

Definition set_tokens (x : Qc) (tb : TokenBucket) : TokenBucket :=
  {| capacity := capacity tb; tokens := x; fillRate := fillRate tb;
     lastRefill := lastRefill tb; waitTimeout := waitTimeout tb |}.

Definition set_fillRate (x : Qc) (tb : TokenBucket) : TokenBucket :=
  {| capacity := capacity tb; tokens := tokens tb; fillRate := x;
     lastRefill := lastRefill tb; waitTimeout := waitTimeout tb |}.

Definition set_lastRefill (t : Time) (tb : TokenBucket) : TokenBucket :=
  {| capacity := capacity tb; tokens := tokens tb; fillRate := fillRate tb;
     lastRefill := t; waitTimeout := waitTimeout tb |}.

Definition NewTokenBucket (capacity : Z) (fillRate : Qc)
    (waitTimeout : Duration) : M TokenBucket :=
  do now <- time_Now;
  ret {| capacity := capacity;
         tokens := 1%Qc;
         fillRate := fillRate;
         lastRefill := now;
         waitTimeout := waitTimeout |}.

(** The refill at the head of [Take]. *)
Definition refill (now : Time) (tb : TokenBucket) : TokenBucket :=
  let elapsed := Seconds (Sub now (lastRefill tb)) in
  let tb := set_lastRefill now tb in
  let newTokens := (elapsed * fillRate tb)%Qc in
  if decide (0 < newTokens)%Qc then
    let tb := set_tokens (tokens tb + newTokens)%Qc tb in
    if decide (float64_of_int (capacity tb) < tokens tb)%Qc
    then set_tokens (float64_of_int (capacity tb)) tb
    else tb
  else tb.

Definition Take (tb : TokenBucket) : M (bool * TokenBucket) :=
  do now <- time_Now;
  let tb := refill now tb in
  if decide (1 ≤ tokens tb)%Qc
  then ret (true, set_tokens (tokens tb - 1)%Qc tb)
  else ret (false, tb).

(** The wait computed by [TakeWithTimeout] after a failed [Take]. *)
Definition timeToWait {rt : GoRuntime} (tb : TokenBucket) : Duration :=
  let tokensNeeded := (1 - tokens tb)%Qc in
  let timeToWait :=
    int64_of_float64
      ((λ q, q * float64_of_int Second)%Qc
         <$> float64_div tokensNeeded (fillRate tb)) in
  if decide (waitTimeout tb < timeToWait) then waitTimeout tb else timeToWait.

Definition TakeWithTimeout {rt : GoRuntime} (tb : TokenBucket)
    : M (bool * TokenBucket) :=
  do '(ok, tb) <- Take tb;
  if ok then ret (true, tb)
  else
    run time_Sleep (timeToWait tb);
    Take tb.

Definition Update (used reset maxRequests : Z) (tb : TokenBucket)
    : TokenBucket :=
  let totalAllocationPeriod := 600 in
  let totalAllocation := 1000 in
  let fullRate :=
    (float64_of_int totalAllocation / float64_of_int totalAllocationPeriod)%Qc in
  let targetRate := (fullRate * Q2Qc (95 # 100))%Qc in
  set_fillRate targetRate tb.

(** ** The state of a bucket as the data model has it *)

Definition tokens_in_range (tb : TokenBucket) : Prop :=
  (0 ≤ tokens tb)%Qc ∧ (tokens tb ≤ float64_of_int (capacity tb))%Qc.

(** The rate every [Update] installs: 95% of 1000 requests per 600 s. *)
Definition nominalRate : Qc :=
  (float64_of_int 1000 / float64_of_int 600 * Q2Qc (95 # 100))%Qc.


(** ** The API client *)

Definition baseURL : string := "https://oauth.reddit.com".
Definition authURL : string := "https://www.reddit.com/api/v1/access_token".
Definition defaultLimit : Z := 100.

(** [models.Post] *)
Record Post := {
  ID : string;
  Title : string;
  Author : string;
  Subreddit : string;
  PostURL : string;
  CreatedUTC : Qc;
  CreatedAt : Time;
  Upvotes : Z;
  Downvotes : Z;
  Score : Z;
  NumComments : Z;
  PostHint : string;
  IsVideo : bool;
  IsSelf : bool;
  SelfText : string;
  Permalink : string;
  ProcessedTime : Time
}.

(** The fields of the client that the code reads or writes; the HTTP
    client and the logger act through [Env]. *)
Record RedditAPI := {
  clientID : string;
  clientSecret : string;
  userAgent : string;
  accessToken : string;
  tokenExpiry : Time;
  rateLimiter : TokenBucket;
  maxRequestsPerMin : Z;
  rateRemainingCached : Z;
  rateResetCached : Z;
  rateUsedCached : Z
}.

Definition set_rateLimiter (tb : TokenBucket) (r : RedditAPI) : RedditAPI :=
  {| clientID := clientID r; clientSecret := clientSecret r;
     userAgent := userAgent r; accessToken := accessToken r;
     tokenExpiry := tokenExpiry r; rateLimiter := tb;
     maxRequestsPerMin := maxRequestsPerMin r;
     rateRemainingCached := rateRemainingCached r;
     rateResetCached := rateResetCached r;
     rateUsedCached := rateUsedCached r |}.

Definition set_rateCached (remaining reset used : Z) (r : RedditAPI)
    : RedditAPI :=
  {| clientID := clientID r; clientSecret := clientSecret r;
     userAgent := userAgent r; accessToken := accessToken r;
     tokenExpiry := tokenExpiry r; rateLimiter := rateLimiter r;
     maxRequestsPerMin := maxRequestsPerMin r;
     rateRemainingCached := remaining;
     rateResetCached := reset;
     rateUsedCached := used |}.

Definition set_token (token : string) (expiry : Time) (r : RedditAPI)
    : RedditAPI :=
  {| clientID := clientID r; clientSecret := clientSecret r;
     userAgent := userAgent r; accessToken := token;
     tokenExpiry := expiry; rateLimiter := rateLimiter r;
     maxRequestsPerMin := maxRequestsPerMin r;
     rateRemainingCached := rateRemainingCached r;
     rateResetCached := rateResetCached r;
     rateUsedCached := rateUsedCached r |}.

(** One constructor for each place where the source builds an error. *)
Inductive error :=
  | ErrAuthRateLimit
  | ErrAuthCreateRequest
  | ErrAuthExecute
  | ErrAuthStatus (code : Z) (body : string)
  | ErrAuthDecode
  | ErrCreateRequest
  | ErrExecute
  | ErrStatus (code : Z) (body : string)
  | ErrDecode.

Definition NewRedditAPI (clientID clientSecret userAgent : string)
    (maxRequestsPerMinute : Z) : M RedditAPI :=
  let maxRequestsPerMinute :=
    if decide (maxRequestsPerMinute <= 0) then 100 else maxRequestsPerMinute in
  let totalAllocation := wrap64 (maxRequestsPerMinute * 10) in
  let standardRate :=
    (float64_of_int totalAllocation / float64_of_int 600)%Qc in
  let targetRate := (standardRate * Q2Qc (95 # 100))%Qc in
  do rateLimiter <- NewTokenBucket 1 targetRate (30 * Second);
  ret {| clientID := clientID;
         clientSecret := clientSecret;
         userAgent := userAgent;
         accessToken := "";
         tokenExpiry := zeroTime;
         rateLimiter := rateLimiter;
         maxRequestsPerMin := maxRequestsPerMinute;
         rateRemainingCached := 0;
         rateResetCached := 600;
         rateUsedCached := 0 |}.

Definition GetRateLimitStatus (r : RedditAPI) : Z * Z * Z :=
  (rateRemainingCached r, rateResetCached r, rateUsedCached r).

(** *** Headers *)

(** [header.Get(name)] for a [name] already in canonical form, as all
    the names in the source are: the first value stored under it. *)
Definition Header_Get (h : gmap string (list string)) (name : string)
    : string :=
  match h !! name with
  | Some (v :: _) => v
  | _ => ""
  end.

Definition digit_of (c : ascii) : option Z :=
  let n := Z.of_N (N_of_ascii c) in
  if decide (48 <= n <= 57) then Some (n - 48) else None.

Fixpoint parse_digits (s : string) (acc : Z) : option Z :=
  match s with
  | EmptyString => Some acc
  | String c s' =>
      match digit_of c with
      | Some d => parse_digits s' (acc * 10 + d)
      | None => None
      end
  end.

(** [strconv.Atoi]: an optional sign and one or more decimal digits,
    and a value that fits an [int]; [None] stands for its error. *)
Definition Atoi (s : string) : option Z :=
  match s with
  | EmptyString => None
  | String c rest =>
      let neg := bool_decide (c = "-"%char) in
      let digits :=
        if decide (c = "-"%char ∨ c = "+"%char) then rest else s in
      match digits with
      | EmptyString => None
      | _ =>
          match parse_digits digits 0 with
          | Some n =>
              let v := if neg then - n else n in
              if decide (in_int64 v) then Some v else None
          | None => None
          end
      end
  end.

Definition getHeaderAsInt (header : gmap string (list string))
    (name : string) : Z :=
  let value := Header_Get header name in
  if decide (value = "") then 0
  else
    match Atoi value with
    | None => 0
    | Some intValue => intValue
    end.

Definition updateRateLimits (resp : Response) (r : RedditAPI) : M RedditAPI :=
  let used := getHeaderAsInt (Header resp) "X-Ratelimit-Used" in
  let remaining := getHeaderAsInt (Header resp) "X-Ratelimit-Remaining" in
  let reset := getHeaderAsInt (Header resp) "X-Ratelimit-Reset" in
  if decide (reset = 0 ∧ used = 0) then ret r
  else
    let r := set_rateCached remaining reset used r in
    let r :=
      set_rateLimiter
        (Update used reset (maxRequestsPerMin r) (rateLimiter r)) r in
    run log DebugLevel "Updated rate limiter based on Reddit headers";
    ret r.

(** *** Requests *)

(** [http.NewRequest]: fails when the URL does not parse. *)
Definition http_NewRequest {rt : GoRuntime} (method url body : string)
    : option Request :=
  if url_parses url
  then Some {| Method := method; URL := url; ReqBody := body;
               BasicAuth := None; ReqHeader := ∅ |}
  else None.

(** [req.SetBasicAuth]: the credentials are kept as they are given. *)
Definition SetBasicAuth (username password : string) (req : Request)
    : Request :=
  {| Method := Method req; URL := URL req; ReqBody := ReqBody req;
     BasicAuth := Some (username, password); ReqHeader := ReqHeader req |}.

(** [req.Header.Set] *)
Definition Header_Set (key value : string) (req : Request) : Request :=
  {| Method := Method req; URL := URL req; ReqBody := ReqBody req;
     BasicAuth := BasicAuth req;
     ReqHeader := <[key := value]> (ReqHeader req) |}.

Definition authenticate {rt : GoRuntime} (r : RedditAPI)
    : M (option error * RedditAPI) :=
  let token := accessToken r in
  let expiry := tokenExpiry r in
  do now <- time_Now;
  if decide (token ≠ "" ∧ now < expiry) then ret (None, r)
  else
    run log InfoLevel "Authenticating with Reddit API";
    do '(ok, tb) <- TakeWithTimeout (rateLimiter r);
    let r := set_rateLimiter tb r in
    if negb ok then ret (Some ErrAuthRateLimit, r)
    else
      run log DebugLevel "Using application-only auth with client credentials";
      let data := "grant_type=client_credentials" in
      match http_NewRequest "POST" authURL data with
      | None => ret (Some ErrAuthCreateRequest, r)
      | Some req =>
          let req := SetBasicAuth (clientID r) (clientSecret r) req in
          let req := Header_Set "User-Agent" (userAgent r) req in
          let req :=
            Header_Set "Content-Type" "application/x-www-form-urlencoded" req in
          do res <- http_Do req;
          match res with
          | None => ret (Some ErrAuthExecute, r)
          | Some resp =>
              do r <- updateRateLimits resp r;
              if decide (StatusCode resp ≠ 200)
              then ret (Some (ErrAuthStatus (StatusCode resp) (Body resp)), r)
              else
                match json_decode_auth (Body resp) with
                | None => ret (Some ErrAuthDecode, r)
                | Some authResp =>
                    do now <- time_Now;
                    let r :=
                      set_token (AccessToken authResp)
                        (now + wrap64 (ExpiresIn authResp * Second)) r in
                    run log InfoLevel
                      "Successfully authenticated with Reddit API";
                    ret (None, r)
                end
          end
      end.

(** The conversion of one listing child in the loop of [FetchPosts]. *)
Definition toPost {rt : GoRuntime} (now : Time) (redditPost : RedditPost) : Post :=
  let d := rp_Data redditPost in
  {| ID := rp_ID d;
     Title := rp_Title d;
     Author := rp_Author d;
     Subreddit := rp_Subreddit d;
     PostURL := rp_URL d;
     CreatedUTC := rp_CreatedUTC d;
     CreatedAt := Unix (int64_of_float64 (Some (rp_CreatedUTC d)));
     Upvotes := rp_Ups d;
     Downvotes := rp_Downs d;
     Score := rp_Score d;
     NumComments := rp_NumComments d;
     PostHint := rp_PostHint d;
     IsVideo := rp_IsVideo d;
     IsSelf := rp_IsSelf d;
     SelfText := rp_SelfText d;
     Permalink := rp_Permalink d;
     ProcessedTime := now |}.

(** What [FetchPosts] returns: the posts, the next cursor, the error. *)
Definition FetchResult : Type := list Post * string * option error.

(** [FetchPosts] calls itself with no bound; [fuel] bounds the depth of
    the recursion, and the result is [None] when it is used up. *)
Fixpoint FetchPosts {rt : GoRuntime} (fuel : nat) (r : RedditAPI)
    (subreddit : string) (limit : Z) (after : string)
    : M (option FetchResult * RedditAPI) :=
  match fuel with
  | O => ret (None, r)
  | S fuel =>
    do '(err, r) <- authenticate r;
    match err with
    | Some err => ret (Some ([], "", Some err), r)
    | None =>
      let limit :=
        if decide (limit <= 0 ∨ limit > 100) then defaultLimit else limit in
      do '(ok, tb) <- TakeWithTimeout (rateLimiter r);
      let r := set_rateLimiter tb r in
      if negb ok then
        run log WarnLevel "Rate limit exceeded, waiting before retrying";
        run time_Sleep Second;
        FetchPosts fuel r subreddit limit after
      else
        let endpoint :=
          baseURL +:+ "/r/" +:+ subreddit +:+ "/new.json?limit="
            +:+ pretty limit in
        let endpoint :=
          if decide (after ≠ "") then endpoint +:+ "&after=" +:+ after
          else endpoint in
        run log InfoLevel
          "Fetching posts from Reddit API with pagination token";
        match http_NewRequest "GET" endpoint "" with
        | None => ret (Some ([], "", Some ErrCreateRequest), r)
        | Some req =>
            let token := accessToken r in
            let req := Header_Set "Authorization" ("Bearer " +:+ token) req in
            let req := Header_Set "User-Agent" (userAgent r) req in
            do res <- http_Do req;
            match res with
            | None => ret (Some ([], "", Some ErrExecute), r)
            | Some resp =>
                do r <- updateRateLimits resp r;
                if decide (StatusCode resp ≠ 200) then
                  run log ErrorLevel "Reddit API error response";
                  ret (Some ([], "",
                             Some (ErrStatus (StatusCode resp) (Body resp))),
                       r)
                else
                  match json_decode_listing (Body resp) with
                  | None => ret (Some ([], "", Some ErrDecode), r)
                  | Some redditResp =>
                      do now <- time_Now;
                      let posts := toPost now <$> rr_Children redditResp in
                      run log InfoLevel
                        "Fetched posts from Reddit with pagination info";
                      ret (Some (posts, rr_After redditResp, None), r)
                  end
            end
        end
    end
  end.

(** ** Callers *)

(** A caller that lets [d] nanoseconds pass before each [Take], for each
    [d] of [gaps] in turn, and counts the calls that return [true]. *)
Fixpoint take_seq (gaps : list N) (tb : TokenBucket) : M (nat * TokenBucket) :=
  match gaps with
  | [] => ret (O, tb)
  | d :: gaps =>
      run elapse d;
      do '(ok, tb) <- Take tb;
      do '(n, tb) <- take_seq gaps tb;
      ret ((if ok then S n else n), tb)
  end.





(** The events added to the trace between [e] and [e'], newest first. *)
Definition new_events (e e' : Env) : list Event :=
  take (length (trace e') - length (trace e)) (trace e').

Definition is_GET (ev : Event) : bool :=
  match ev with
  | EvDo req _ => bool_decide (Method req = "GET")
  | _ => false
  end.

(** The URL that [FetchPosts] builds. *)
Definition fetch_url (subreddit : string) (limit : Z) (after : string)
    : string :=
  let limit := if decide (limit <= 0 ∨ limit > 100) then 100 else limit in
  let endpoint :=
    baseURL +:+ "/r/" +:+ subreddit +:+ "/new.json?limit=" +:+ pretty limit in
  if decide (after = "") then endpoint
  else endpoint +:+ "&after=" +:+ after.

(** A listing response that [FetchPosts] turns into an error, and the
    error it builds for it. *)
Definition bad_response {rt : GoRuntime} (resp : Response) : Prop :=
  StatusCode resp ≠ 200 ∨ json_decode_listing (Body resp) = None.

Definition response_error (resp : Response) : error :=
  if decide (StatusCode resp ≠ 200)
  then ErrStatus (StatusCode resp) (Body resp)
  else ErrDecode.

(** [e'] continues [e] with events [evs], none of them a GET. *)
Definition adds_no_GET (e e' : Env) : Prop :=
  ∃ evs, trace e' = evs ++ trace e ∧ List.filter is_GET evs = [].

(** What a run of [FetchPosts] from [e] has done when it ends in [res]:
    it has added events to the trace, among them at most one GET; that
    GET went to [url], and if a bad response came back the result is
    the error built for it, with no posts and an empty cursor. *)
Definition fetch_post {rt : GoRuntime} (url : string) (e : Env)
    (res : option FetchResult * RedditAPI * Env) : Prop :=
  ∃ evs, trace res.2 = evs ++ trace e ∧
    (List.filter is_GET evs = []
     ∨ ∃ req reply,
         List.filter is_GET evs = [EvDo req reply]
         ∧ URL req = url
         ∧ ∀ resp, reply = Some resp → bad_response resp →
             res.1.1 = Some ([], "", Some (response_error resp))).

(** ** Fixtures *)

(** A runtime for the examples: the undefined conversion gives the
    smallest [int64], every URL parses, a non-empty body decodes to an
    envelope that carries it (as the token, or as the next cursor).  A
    token lasts an hour, the token ["brief"] twenty seconds. *)
Definition testRuntime : GoRuntime :=
  {| f2i_undefined := λ _, min_int64;
     json_decode_auth := λ body,
       if decide (body = "") then None
       else Some {| AccessToken := body;
                    ExpiresIn := if decide (body = "brief") then 20 else 3600;
                    TokenType := "bearer" |};
     json_decode_listing := λ body,
       if decide (body = "") then None
       else Some {| rr_Kind := "Listing"; rr_After := body;
                    rr_Before := ""; rr_Children := [] |};
     url_parses := λ _, true |}.

(** The bucket of the end-to-end scenario: capacity 1, one token per
    second, the seed token, last refilled at time 0. *)
Definition unitBucket : TokenBucket :=
  {| capacity := 1; tokens := 1%Qc; fillRate := 1%Qc;
     lastRefill := 0; waitTimeout := Second |}.


(** A client that holds the token ["tok"], valid until time 3600 s,
    and whose limiter is [unitBucket]. *)
Definition readyClient : RedditAPI :=
  {| clientID := "id"; clientSecret := "secret"; userAgent := "ua";
     accessToken := "tok"; tokenExpiry := 3600 * Second;
     rateLimiter := unitBucket; maxRequestsPerMin := 100;
     rateRemainingCached := 0; rateResetCached := 600;
     rateUsedCached := 0 |}.

(** Replies of the network: a token, a short-lived token, a server
    error, and a listing page whose rate-limit headers are unusable. *)
Definition tokenReply : Response :=
  {| StatusCode := 200; Header := ∅; Body := "tok" |}.

Definition briefReply : Response :=
  {| StatusCode := 200; Header := ∅; Body := "brief" |}.

Definition busyReply : Response :=
  {| StatusCode := 503; Header := ∅; Body := "busy" |}.

Definition pageReply : Response :=
  {| StatusCode := 200;
     Header := {[ "X-Ratelimit-Reset" := ["soon"];
                  "X-Ratelimit-Remaining" := ["5"] ]};
     Body := "t3_next" |}.

(** A world at time [t] where the network never answers. *)
Definition quiet (t : Time) : Env :=
  {| clock := t; oversleep := []; network := []; trace := [] |}.

(** A world at time [t] where the network gives the replies [rs]. *)
Definition serving (t : Time) (rs : list (N * option Response)) : Env :=
  {| clock := t; oversleep := []; network := rs; trace := [] |}.

(** A client made at time 0 for a budget of one request per minute, in
    a world with the replies [rs]. *)
Definition newClient (rs : list (N * option Response)) : RedditAPI * Env :=
  NewRedditAPI "id" "secret" "ua" 1 (serving 0 rs).

(** That client after a first fetch whose token exchange got no answer:
    the seed token is spent and no access token is held. *)
Definition afterFailedAuth : option FetchResult * RedditAPI * Env :=
  FetchPosts (rt := testRuntime) 1 (newClient []).1 "golang" 100 ""
    (newClient []).2.

(** ** What the client keeps *)

(** The limiter of a client: capacity 1, a balance in range, a positive
    fill rate. *)
Definition bucket_ok (tb : TokenBucket) : Prop :=
  capacity tb = 1 ∧ tokens_in_range tb ∧ (0 < fillRate tb)%Qc.

Definition limiter_ok (r : RedditAPI) : Prop := bucket_ok (rateLimiter r).

(** [r'] has the credentials, user agent and budget of [r]. *)
Definition same_identity (r r' : RedditAPI) : Prop :=
  clientID r' = clientID r
  ∧ clientSecret r' = clientSecret r
  ∧ userAgent r' = userAgent r
  ∧ maxRequestsPerMin r' = maxRequestsPerMin r.

(** [r'] holds the access token of [r], with the same expiry. *)
Definition same_token (r r' : RedditAPI) : Prop :=
  accessToken r' = accessToken r ∧ tokenExpiry r' = tokenExpiry r.



(** What a run of [FetchPosts] from [e] that ends in [res] without an
    error has done: one GET, answered with status 200 and a body that
    decodes to the page the result is made of. *)
Definition fetched_page {rt : GoRuntime} (e : Env)
    (res : option FetchResult * RedditAPI * Env) : Prop :=
  ∀ posts cursor, res.1.1 = Some (posts, cursor, None) →
    ∃ evs req resp page,
      trace res.2 = evs ++ trace e
      ∧ List.filter is_GET evs = [EvDo req (Some resp)]
      ∧ StatusCode resp = 200
      ∧ json_decode_listing (Body resp) = Some page
      ∧ cursor = rr_After page
      ∧ posts = toPost (clock res.2) <$> rr_Children page.

(** The request that [authenticate] sends for the client [r]. *)
Definition tokenRequest (r : RedditAPI) : Request :=
  {| Method := "POST";
     URL := authURL;
     ReqBody := "grant_type=client_credentials";
     BasicAuth := Some (clientID r, clientSecret r);
     ReqHeader :=
       <["Content-Type" := "application/x-www-form-urlencoded"]>
         (<["User-Agent" := userAgent r]> ∅) |}.

(** ** Configuration (package [utils]) *)

Module utils.

Record AppConfig := {
  Name : string;
  Version : string
}.

Record RedditConfig := {
  ClientID : string;
  ClientSecret : string;
  UserAgent : string;
  Subreddits : list string;
  PollingInterval : Z;
  MaxRequestsPerMinute : Z
}.

Record DatabaseConfig := {
  Path : string
}.

Record ServerConfig := {
  Port : Z
}.

Record Config := {
  App : AppConfig;
  Reddit : RedditConfig;
  Database : DatabaseConfig;
  Server : ServerConfig
}.

(** What the libraries and the file system contribute: [strings.TrimSpace],
    [filepath.Dir], whether [os.MkdirAll] succeeds on a path, and the
    process environment that [godotenv.Load] leaves ([None] when it
    fails to read the file). *)
Class Libs := {
  strings_TrimSpace : string → string;
  filepath_Dir : string → string;
  os_MkdirAll : string → bool;
  godotenv_Load : string → gmap string string → option (gmap string string)
}.

(** One constructor for each error that [LoadConfig] can return. *)
Inductive error :=
  | ErrLoadEnv
  | ErrClientID
  | ErrClientSecret
  | ErrUserAgent
  | ErrSubreddits
  | ErrPollingInterval
  | ErrMkdirAll.

(** [strings.Split(s, sep)] for a separator of one byte: the pieces
    between the separators, in order; one more piece than separators. *)
Fixpoint strings_Split (s : string) (sep : ascii) : list string :=
  match s with
  | EmptyString => [""]
  | String c rest =>
      match strings_Split rest sep with
      | part :: parts =>
          if decide (c = sep) then "" :: part :: parts
          else String c part :: parts
      | [] => [String c ""]
      end
  end.

Definition parseSubreddits {libs : Libs} (subredditsStr : string)
    : list string :=
  let parts := strings_Split subredditsStr ","%char in
  let subreddits :=
    foldl (λ subreddits part,
             let trimmed := strings_TrimSpace part in
             if decide (trimmed ≠ "") then subreddits ++ [trimmed]
             else subreddits)
          [] parts in
  if decide (length subreddits = 0%nat) then subreddits ++ ["golang"]
  else subreddits.

(** [os.Getenv]: the value of the variable, empty when it is not set. *)
Definition os_Getenv (environ : gmap string string) (key : string) : string :=
  default "" (environ !! key).

Definition getEnv (environ : gmap string string) (key defaultValue : string)
    : string :=
  let value := os_Getenv environ key in
  if decide (value = "") then defaultValue else value.

Definition getEnvAsInt (environ : gmap string string) (key : string)
    (defaultValue : Z) : Z :=
  let valueStr := os_Getenv environ key in
  match Atoi valueStr with
  | Some value => value
  | None => defaultValue
  end.

Definition validateConfig {libs : Libs} (config : Config) : option error :=
  if decide (ClientID (Reddit config) = "") then Some ErrClientID
  else if decide (ClientSecret (Reddit config) = "") then Some ErrClientSecret
  else if decide (UserAgent (Reddit config) = "") then Some ErrUserAgent
  else if decide (length (Subreddits (Reddit config)) = 0%nat)
       then Some ErrSubreddits
  else if decide (PollingInterval (Reddit config) < 1)
       then Some ErrPollingInterval
  else
    let dbDir := filepath_Dir (Path (Database config)) in
    if decide (dbDir ≠ "." ∧ dbDir ≠ "") then
      if os_MkdirAll dbDir then None else Some ErrMkdirAll
    else None.

(** [LoadConfig] in the process environment [environ]. *)
Definition LoadConfig {libs : Libs} (envPath : string)
    (environ : gmap string string) : M (Config + error) :=
  let envPath := if decide (envPath = "") then ".env" else envPath in
  match godotenv_Load envPath environ with
  | None => ret (inr ErrLoadEnv)
  | Some environ =>
      let subredditsStr := getEnv environ "REDDIT_SUBREDDITS" "golang" in
      let subreddits := parseSubreddits subredditsStr in
      let config :=
        {| App :=
             {| Name := getEnv environ "APP_NAME" "Reddit Tracker";
                Version := getEnv environ "APP_VERSION" "1.0.0" |};
           Reddit :=
             {| ClientID := getEnv environ "REDDIT_CLIENT_ID" "";
                ClientSecret := getEnv environ "REDDIT_CLIENT_SECRET" "";
                UserAgent := getEnv environ "REDDIT_USER_AGENT" "";
                Subreddits := subreddits;
                PollingInterval :=
                  getEnvAsInt environ "REDDIT_POLLING_INTERVAL" 60;
                MaxRequestsPerMinute :=
                  getEnvAsInt environ "REDDIT_MAX_REQUESTS_PER_MINUTE" 100 |};
           Database :=
             {| Path := getEnv environ "DATABASE_PATH" "./reddit.db" |};
           Server := {| Port := getEnvAsInt environ "SERVER_PORT" 8080 |} |} in
      match validateConfig config with
      | Some err => ret (inr err)
      | None =>
          run log InfoLevel "Config loaded successfully";
          ret (inl config)
      end
  end.

(** [strings.TrimSpace] on a string of ASCII bytes. *)
Definition is_space (c : ascii) : bool :=
  bool_decide (c = " "%char ∨ c = "009"%char ∨ c = "010"%char
               ∨ c = "011"%char ∨ c = "012"%char ∨ c = "013"%char).

Fixpoint trim_left (s : string) : string :=
  match s with
  | String c rest => if is_space c then trim_left rest else s
  | EmptyString => EmptyString
  end.

Fixpoint trim_right (s : string) : string :=
  match s with
  | String c rest =>
      match trim_right rest with
      | EmptyString => if is_space c then EmptyString else String c EmptyString
      | kept => String c kept
      end
  | EmptyString => EmptyString
  end.

(** Libraries for the examples: ASCII trimming, a flat directory, an
    environment file that adds nothing. *)
Definition testLibs : Libs :=
  {| strings_TrimSpace := λ s, trim_right (trim_left s);
     filepath_Dir := λ _, ".";
     os_MkdirAll := λ _, true;
     godotenv_Load := λ _ environ, Some environ |}.

End utils.

(** ** The collector (package [stats]) *)

Module stats.

Definition defaultTopPostsLimit : Z := 10.
Definition defaultTopUsersLimit : Z := 10.

(** [models.SubredditStats] and [models.Statistics] *)
Record SubredditStats := {
  PostCount : Z;
  HighestUpvotedPost : Post
}.

Record Statistics := {
  TotalPosts : Z;
  ProcessedPostCount : Z;
  TopPostsByUpvotes : list Post;
  TopUsersByPostCount : gmap string Z;
  StartTime : Time;
  LastUpdated : Time;
  SubredditStatsOf : gmap string SubredditStats
}.

(** What the storage answers to the four queries of the collector at
    the time of a call; [None] stands for an error. *)
Record Database := {
  GetTopPostsByUpvotes : Z → option (list Post);
  GetTopUsersByPostCount : Z → option (gmap string Z);
  GetTotalPosts : option Z;
  GetPostsBySubreddit : string → option (list Post)
}.

(** The fields of the collector; the client and the storage are passed
    to the functions that use them. *)
Record Collector := {
  subreddits : list string;
  paginationKeys : gmap string string;
  pollingInterval : Duration;
  topPostsLimit : Z;
  topUsersLimit : Z;
  stats : Statistics;
  processedPostCount : Z
}.

Definition set_paginationKeys (keys : gmap string string) (c : Collector)
    : Collector :=
  {| subreddits := subreddits c; paginationKeys := keys;
     pollingInterval := pollingInterval c; topPostsLimit := topPostsLimit c;
     topUsersLimit := topUsersLimit c; stats := stats c;
     processedPostCount := processedPostCount c |}.

Definition set_stats (st : Statistics) (c : Collector) : Collector :=
  {| subreddits := subreddits c; paginationKeys := paginationKeys c;
     pollingInterval := pollingInterval c; topPostsLimit := topPostsLimit c;
     topUsersLimit := topUsersLimit c; stats := st;
     processedPostCount := processedPostCount c |}.

Definition NewCollector (subreddits : list string) (pollingInterval : Z)
    : M Collector :=
  do startTime <- time_Now;
  do lastUpdated <- time_Now;
  ret {| subreddits := subreddits;
         paginationKeys := ∅;
         pollingInterval := wrap64 (pollingInterval * Second);
         topPostsLimit := defaultTopPostsLimit;
         topUsersLimit := defaultTopUsersLimit;
         stats :=
           {| TotalPosts := 0; ProcessedPostCount := 0;
              TopPostsByUpvotes := []; TopUsersByPostCount := ∅;
              StartTime := startTime; LastUpdated := lastUpdated;
              SubredditStatsOf := ∅ |};
         processedPostCount := 0 |}.

(** The interval that the adjustment goroutine of [Start] computes for
    [numSubreddits] subreddits. *)
Definition newInterval {rt : GoRuntime} (numSubreddits : Z) : Duration :=
  let totalAllowedRequests := 1000 in
  let totalPeriodSeconds := 600 in
  let standardRate :=
    (float64_of_int totalAllowedRequests / float64_of_int totalPeriodSeconds
     * Q2Qc (95 # 100))%Qc in
  let standardRate :=
    if decide (numSubreddits > 1)
    then (standardRate / float64_of_int numSubreddits)%Qc
    else standardRate in
  let secondsPerRequest := float64_div 1%Qc standardRate in
  int64_of_float64
    ((λ q, q * float64_of_int Second)%Qc <$> secondsPerRequest).

(** [math.Abs] *)
Definition math_Abs (x : Qc) : Qc := if decide (x < 0)%Qc then (- x)%Qc else x.

(** The test of that goroutine: whether [newInterval] is sent to the
    main loop, which then makes it the polling interval. *)
Definition intervalChanged (pollingInterval newInterval : Duration) : bool :=
  bool_decide
    (pollingInterval = 0
     ∨ (float64_of_int (Z.quot pollingInterval 4)
        < math_Abs (float64_of_int (wrap64 (newInterval - pollingInterval))))%Qc).

(** The scan of [updateStatistics] for the post with the most upvotes,
    started at [first]. *)
Definition highestUpvoted (first : Post) (posts : list Post) : Post :=
  foldl (λ highestUpvoted post,
           if decide (Upvotes post > Upvotes highestUpvoted) then post
           else highestUpvoted)
        first posts.

(** The loop of [updateStatistics] over the subreddits. *)
Fixpoint subredditStatsLoop (database : Database) (subs : list string)
    (subredditStats : gmap string SubredditStats)
    : M (gmap string SubredditStats) :=
  match subs with
  | [] => ret subredditStats
  | subreddit :: subs =>
      match GetPostsBySubreddit database subreddit with
      | None =>
          run log ErrorLevel "Failed to get posts for subreddit";
          subredditStatsLoop database subs subredditStats
      | Some [] => subredditStatsLoop database subs subredditStats
      | Some (first :: rest) =>
          let posts := first :: rest in
          let st :=
            {| PostCount := Z.of_nat (length posts);
               HighestUpvotedPost := highestUpvoted first posts |} in
          subredditStatsLoop database subs (<[subreddit := st]> subredditStats)
      end
  end.

Definition updateStatistics (database : Database) (c : Collector)
    : M Collector :=
  match GetTopPostsByUpvotes database (topPostsLimit c) with
  | None => run log ErrorLevel "Failed to get top posts"; ret c
  | Some topPosts =>
      match GetTopUsersByPostCount database (topUsersLimit c) with
      | None => run log ErrorLevel "Failed to get top users"; ret c
      | Some topUsers =>
          match GetTotalPosts database with
          | None => run log ErrorLevel "Failed to get total posts"; ret c
          | Some totalPosts =>
              do subredditStats <-
                subredditStatsLoop database (subreddits c) ∅;
              do now <- time_Now;
              ret (set_stats
                     {| TotalPosts := totalPosts;
                        ProcessedPostCount := ProcessedPostCount (stats c);
                        TopPostsByUpvotes := topPosts;
                        TopUsersByPostCount := topUsers;
                        StartTime := StartTime (stats c);
                        LastUpdated := now;
                        SubredditStatsOf := subredditStats |} c)
          end
      end
  end.

Definition GetStatistics (c : Collector) : Statistics := stats c.

(** [resetPaginationKeys]: every key of the map is given the empty
    cursor, one after the other. *)
Definition resetPaginationKeys (c : Collector) : M Collector :=
  let keys :=
    foldr (λ subreddit keys, <[subreddit := ""]> keys)
          (paginationKeys c) (map_to_list (paginationKeys c)).*1 in
  let c := set_paginationKeys keys c in
  run log InfoLevel "Reset pagination keys to check for newest posts";
  ret c.

(** The goroutine that [fetchAndProcessPosts] starts for the subreddit
    [sr], up to the write of the new cursor: [Some posts] when the posts
    go on to [processPosts], [None] when the goroutine has returned
    after an error (or [fuel] has run out). *)
Definition fetchSubreddit {rt : GoRuntime} (fuel : nat) (c : Collector)
    (r : RedditAPI) (sr : string)
    : M (option (list Post) * Collector * RedditAPI) :=
  run log DebugLevel "Starting to fetch posts for subreddit";
  let paginationKey := default "" (paginationKeys c !! sr) in
  run log InfoLevel "Using pagination key for fetch";
  do '(res, r) <- FetchPosts fuel r sr 100 paginationKey;
  match res with
  | None => ret (None, c, r)
  | Some (_, _, Some err) => ret (None, c, r)
  | Some (posts, nextPaginationKey, None) =>
      run log InfoLevel "Fetched posts for subreddit with pagination update";
      ret (Some posts,
           set_paginationKeys
             (<[sr := nextPaginationKey]> (paginationKeys c)) c,
           r)
  end.

End stats.

(** What [updateStatistics] publishes for one subreddit, given the
    answers of the storage: nothing when the query fails or finds no
    post. *)
Definition subredditSummary (database : stats.Database) (sr : string)
    : option stats.SubredditStats :=
  match stats.GetPostsBySubreddit database sr with
  | Some (first :: rest) =>
      Some {| stats.PostCount := Z.of_nat (length (first :: rest));
              stats.HighestUpvotedPost :=
                stats.highestUpvoted first (first :: rest) |}
  | _ => None
  end.

(** ** The token bucket in binary64

    The definitions of the token bucket above compute in exact
    arithmetic.  The ones of this module round every float64 operation
    to the nearest float64, ties to even, as Go does: they are the ones
    to use for what a call computes to the last bit.  A float64 is the
    rational it denotes.  A result beyond the largest finite float64 is
    left as the rational it rounds to at 53 bits: it stands for the
    infinity Go produces, which the comparisons of this code treat alike.
    NaN does not arise from the values of the data model. *)

Module binary64.

(** The integer nearest to [q], ties to even. *)
Definition rne (q : Q) : Z :=
  let f := Qfloor q in
  match (q - inject_Z f ?= 1 # 2)%Q with
  | Lt => f
  | Gt => f + 1
  | Eq => if Z.even f then f else f + 1
  end.

(** [floor (log2 q)] for [0 < q]. *)
Definition ilog2 (q : Q) : Z :=
  let k := Z.log2 (Qnum q) - Z.log2 (Zpos (Qden q)) in
  if Qle_bool (2 ^ k) q then k else k - 1.

(** The exponent of the last place of the float64 nearest to [q]: 53
    significant bits, none below [2^-1074]. *)
Definition exponent (q : Q) : Z := Z.max (ilog2 q - 52) (-1074).

Definition round_pos (q : Q) : Q :=
  (inject_Z (rne (q * 2 ^ (- exponent q))) * 2 ^ exponent q)%Q.

Definition round64 (q : Q) : Q :=
  match Qnum q with
  | Z0 => 0%Q
  | Zpos _ => round_pos q
  | Zneg _ => (- round_pos (- q))%Q
  end.

(** The float64 nearest to [x]. *)
Definition float64 (x : Qc) : Qc := Q2Qc (round64 x).

Definition add (x y : Qc) : Qc := float64 (x + y).
Definition sub (x y : Qc) : Qc := float64 (x - y).
Definition mul (x y : Qc) : Qc := float64 (x * y).

(** [x / y]: non-finite ([None]) when the divisor is zero. *)
Definition div (x y : Qc) : option Qc :=
  if decide (y = 0%Qc) then None else Some (float64 (x / y)).

(** Whether the platform fuses [x*y + z] into one operation with a
    single rounding, as the Go specification allows an implementation
    to do (the compiler does on arm64, ppc64le, s390x and riscv64, and
    on amd64 from GOAMD64=v3). *)
Class FPU := { fused_multiply_add : bool }.

(** [z + x*y] *)
Definition add_product {fpu : FPU} (z x y : Qc) : Qc :=
  if fused_multiply_add then float64 (z + x * y) else add z (mul x y).

(** [float64(n)] *)
Definition float64_of_int (n : Z) : Qc := float64 (Qc_of_Z n).

(** [d.Seconds()]: [float64(sec) + float64(nsec)/1e9] for the seconds
    and the nanoseconds left of [d]. *)
Definition Seconds (d : Duration) : Qc :=
  let sec := Z.quot d Second in
  let nsec := Z.rem d Second in
  add (float64_of_int sec)
      (float64 (float64_of_int nsec / Qc_of_Z 1000000000)).

(** The refill at the head of [Take]. *)
Definition refill {fpu : FPU} (now : Time) (tb : TokenBucket) : TokenBucket :=
  let elapsed := Seconds (Sub now (lastRefill tb)) in
  let tb := set_lastRefill now tb in
  let newTokens := mul elapsed (fillRate tb) in
  if decide (0 < newTokens)%Qc then
    let tb := set_tokens (add_product (tokens tb) elapsed (fillRate tb)) tb in
    if decide (float64_of_int (capacity tb) < tokens tb)%Qc
    then set_tokens (float64_of_int (capacity tb)) tb
    else tb
  else tb.

Definition Take {fpu : FPU} (tb : TokenBucket) : M (bool * TokenBucket) :=
  do now <- time_Now;
  let tb := refill now tb in
  if decide (1 ≤ tokens tb)%Qc
  then ret (true, set_tokens (sub (tokens tb) 1) tb)
  else ret (false, tb).

(** The wait computed by [TakeWithTimeout] after a failed [Take]. *)
Definition timeToWait {rt : GoRuntime} (tb : TokenBucket) : Duration :=
  let tokensNeeded := sub 1 (tokens tb) in
  let timeToWait :=
    int64_of_float64
      ((λ q, mul q (float64_of_int Second))
         <$> div tokensNeeded (fillRate tb)) in
  if decide (waitTimeout tb < timeToWait) then waitTimeout tb else timeToWait.

Definition TakeWithTimeout {rt : GoRuntime} {fpu : FPU} (tb : TokenBucket)
    : M (bool * TokenBucket) :=
  do '(ok, tb) <- Take tb;
  if ok then ret (true, tb)
  else
    run time_Sleep (timeToWait tb);
    Take tb.

(** A caller that lets [d] nanoseconds pass before each [Take], for each
    [d] of [gaps] in turn, and counts the calls that return [true]. *)
Fixpoint take_seq {fpu : FPU} (gaps : list N) (tb : TokenBucket)
    : M (nat * TokenBucket) :=
  match gaps with
  | [] => ret (O, tb)
  | d :: gaps =>
      run elapse d;
      do '(ok, tb) <- Take tb;
      do '(n, tb) <- take_seq gaps tb;
      ret ((if ok then S n else n), tb)
  end.

(** The relative error of a rounding, the absolute error of one in the
    subnormal range, and the smallest normal float64. *)
Definition pow2 (e : Z) : Q := Eval cbv beta in (2 ^ e)%Q.
Definition u_Q : Q := Eval vm_compute in pow2 (-53).
Definition eta_Q : Q := Eval vm_compute in pow2 (-1075).
Definition tiny_Q : Q := Eval vm_compute in pow2 (-1022).
Definition slack_Q : Q := Eval vm_compute in pow2 (-50).
Definition u : Qc := Q2Qc u_Q.
Definition eta : Qc := Q2Qc eta_Q.
Definition tiny : Qc := Q2Qc tiny_Q.

(** The slack of the bound on the successes of [take_seq]. *)
Definition slack : Qc := Q2Qc slack_Q.

(** A platform that rounds the product and the sum apart, and one that
    fuses them. *)
Definition separate : FPU := {| fused_multiply_add := false |}.
Definition fused : FPU := {| fused_multiply_add := true |}.

End binary64.

(** The balance of a bucket within the float64 of its capacity. *)
Definition tokens_in_float_range (tb : TokenBucket) : Prop :=
  (0 ≤ tokens tb)%Qc ∧ (tokens tb ≤ binary64.float64_of_int (capacity tb))%Qc.

(** ** Fixtures for the binary64 bucket *)

(** A bucket of capacity 1 and one token per second whose balance is
    the float64 nearest to 0.7, last refilled at time 0. *)
Definition partBucket : TokenBucket :=
  {| capacity := 1; tokens := binary64.float64 (Q2Qc (7 # 10));
     fillRate := 1%Qc; lastRefill := 0; waitTimeout := Second |}.

(** An empty bucket of capacity 1 that gains the float64 nearest to a
    third of a token per second. *)
Definition thirdBucket : TokenBucket :=
  {| capacity := 1; tokens := 0%Qc;
     fillRate := binary64.float64 (Q2Qc (1 # 3));
     lastRefill := 0; waitTimeout := 30 * Second |}.

(** An empty bucket of capacity 1 that gains three tokens per second. *)
Definition tripleBucket : TokenBucket :=
  {| capacity := 1; tokens := 0%Qc; fillRate := Q2Qc 3;
     lastRefill := 0; waitTimeout := 30 * Second |}.

(** A full bucket of capacity [2^60]. *)
Definition hugeBucket : TokenBucket :=
  {| capacity := 2 ^ 60; tokens := Qc_of_Z (2 ^ 60); fillRate := 1%Qc;
     lastRefill := 0; waitTimeout := Second |}.

(** ** Fixtures for the configuration and the collector *)

(** A response whose rate-limit headers are usable. *)
Definition limitsReply : Response :=
  {| StatusCode := 200;
     Header := {[ "X-Ratelimit-Used" := ["5"];
                  "X-Ratelimit-Remaining" := ["95"];
                  "X-Ratelimit-Reset" := ["300"] ]};
     Body := "t3_next" |}.

(** A process environment with the credentials and two subreddits. *)
Definition testEnviron : gmap string string :=
  {[ "REDDIT_CLIENT_ID" := "id";
     "REDDIT_CLIENT_SECRET" := "secret";
     "REDDIT_USER_AGENT" := "ua";
     "REDDIT_SUBREDDITS" := "golang, rust" ]}.

Definition testPost (id : string) (upvotes : Z) : Post :=
  {| ID := id; Title := ""; Author := "gopher"; Subreddit := "golang";
     PostURL := ""; CreatedUTC := 0%Qc; CreatedAt := 0; Upvotes := upvotes;
     Downvotes := 0; Score := upvotes; NumComments := 0; PostHint := "";
     IsVideo := false; IsSelf := true; SelfText := ""; Permalink := "";
     ProcessedTime := 0 |}.

(** A storage with two posts of [golang], none of [rust], and an error
    for every other subreddit. *)
Definition testDatabase : stats.Database :=
  {| stats.GetTopPostsByUpvotes := λ _, Some [];
     stats.GetTopUsersByPostCount := λ _, Some ∅;
     stats.GetTotalPosts := Some 2;
     stats.GetPostsBySubreddit := λ sr,
       if decide (sr = "golang") then Some [testPost "a" 3; testPost "b" 7]
       else if decide (sr = "rust") then Some []
       else None |}.

(** A collector for three subreddits, made at time 0, and the same
    collector with a cursor stored for [golang]. *)
Definition testCollector : stats.Collector :=
  (stats.NewCollector ["golang"; "rust"; "zig"] 60 (quiet 0)).1.

Definition pagedCollector : stats.Collector :=
  stats.set_paginationKeys {[ "golang" := "t3_abc" ]} testCollector.

(** ** Arithmetic on [Qc] *)

Ltac qc_unfold :=
  unfold Qcle, Qclt, Qcminus, Qcplus, Qcopp, Qcmult in *;
  cbn [this Q2Qc Qc_of_Z] in *;
  repeat match goal with
  | H : context [Qred _] |- _ => rewrite Qred_correct in H
  | |- context [Qred _] => rewrite Qred_correct
  end.

Ltac qc_lra := qc_unfold; lra.

(** Closed comparisons of numbers. *)
Ltac closed_order := vm_compute; first [reflexivity | discriminate].

Lemma Qc_of_Z_add (a b : Z) : Qc_of_Z (a + b) = (Qc_of_Z a + Qc_of_Z b)%Qc.
Proof.
  apply Qc_is_canon. qc_unfold. now rewrite inject_Z_plus.
Qed.

Lemma Qc_of_Z_le (a b : Z) : a <= b → (Qc_of_Z a ≤ Qc_of_Z b)%Qc.
Proof.
  intros Hab. unfold Qcle. cbn [this Qc_of_Z]. now rewrite <- Zle_Qle.
Qed.

Lemma Qc_of_Z_lt (a b : Z) : a < b → (Qc_of_Z a < Qc_of_Z b)%Qc.
Proof.
  intros Hab. unfold Qclt. cbn [this Qc_of_Z]. now rewrite <- Zlt_Qlt.
Qed.

Lemma Qc_of_Z_inj (a b : Z) : Qc_of_Z a = Qc_of_Z b → a = b.
Proof.
  intros Hab. apply (f_equal this) in Hab. cbn [this Qc_of_Z] in Hab.
  now apply inject_Z_injective; rewrite Hab.
Qed.

Lemma Seconds_add (a b : Duration) :
  Seconds (a + b) = (Seconds a + Seconds b)%Qc.
Proof.
  unfold Seconds. rewrite Qc_of_Z_add. unfold Qcdiv. ring.
Qed.


Lemma Seconds_nonneg (d : Duration) : 0 <= d → (0 ≤ Seconds d)%Qc.
Proof.
  intros Hd. unfold Seconds, Qcdiv.
  apply Qcmult_nonneg_nonneg.
  - now apply (Qc_of_Z_le 0 d).
  - apply Qclt_le_weak, Qcinv_pos. now apply (Qc_of_Z_lt 0 Second).
Qed.

(** * The rate limiter *)

Section Limiter.

Context {rt : GoRuntime}.

(** ** [Update] *)

Lemma Update_eq (used reset maxRequests : Z) (tb : TokenBucket) :
  Update used reset maxRequests tb = set_fillRate nominalRate tb.
Proof. reflexivity. Qed.

Lemma rate_of_total_inj (a b : Z) :
  (float64_of_int a / float64_of_int 600 * Q2Qc (95 # 100))%Qc
  = (float64_of_int b / float64_of_int 600 * Q2Qc (95 # 100))%Qc →
  a = b.
Proof.
  intros Heq. apply Qc_of_Z_inj. unfold float64_of_int in Heq.
  assert (Hk : ∀ x : Qc,
    (x / Qc_of_Z 600 * Q2Qc (95 # 100) * Q2Qc (12000 # 19) = x)%Qc).
  { intros x. unfold Qcdiv.
    replace (x * / Qc_of_Z 600 * Q2Qc (95 # 100) * Q2Qc (12000 # 19))%Qc
      with (x * (/ Qc_of_Z 600 * Q2Qc (95 # 100) * Q2Qc (12000 # 19)))%Qc
      by ring.
    replace (/ Qc_of_Z 600 * Q2Qc (95 # 100) * Q2Qc (12000 # 19))%Qc
      with 1%Qc by (apply Qc_is_canon; reflexivity).
    ring. }
  rewrite <- (Hk (Qc_of_Z a)), <- (Hk (Qc_of_Z b)). now rewrite Heq.
Qed.

(** C1, as amended: whatever [used], [reset] and [total] are, [Update]
    sets [fillRate] to [(1000 / 600) * 0.95] and changes nothing else;
    this is [(total / 600) * 0.95] exactly when [total] is 1000, as in
    [Update(200, 400, 1000)]. *)
Theorem Update_fillRate_nominal (used reset total : Z) (tb : TokenBucket) :
  Update used reset total tb
  = set_fillRate
      (float64_of_int 1000 / float64_of_int 600 * Q2Qc (95 # 100))%Qc tb
  ∧ (fillRate (Update used reset total tb)
     = (float64_of_int total / float64_of_int 600 * Q2Qc (95 # 100))%Qc
     ↔ total = 1000).
Proof.
  split; [done|]. rewrite Update_eq. cbn [fillRate set_fillRate].
  split.
  - intros Heq. symmetry. now apply rate_of_total_inj.
  - now intros ->.
Qed.

(** C1 as stated fails: [Update(200, 400, 500)] does not give
    [(500 / 600) * 0.95]. *)
Lemma Update_ignores_total :
  fillRate (Update 200 400 500 unitBucket)
  ≠ (float64_of_int 500 / float64_of_int 600 * Q2Qc (95 # 100))%Qc.
Proof.
  intros Heq. apply (f_equal this) in Heq. vm_compute in Heq. discriminate.
Qed.

(** The case the tests check. *)
Example Update_200_400_1000 :
  fillRate (Update 200 400 1000 unitBucket)
  = (float64_of_int 1000 / float64_of_int 600 * Q2Qc (95 # 100))%Qc.
Proof. reflexivity. Qed.

(** ** [Take] *)

Lemma Take_unfold (tb : TokenBucket) (env : Env) :
  Take tb env =
    (if decide (1 ≤ tokens (refill (clock env) tb))%Qc
     then (true, set_tokens (tokens (refill (clock env) tb) - 1)%Qc
                   (refill (clock env) tb))
     else (false, refill (clock env) tb), env).
Proof.
  unfold Take, bind, time_Now, ret. now case_decide.
Qed.

Lemma refill_frame (now : Time) (tb : TokenBucket) :
  capacity (refill now tb) = capacity tb
  ∧ fillRate (refill now tb) = fillRate tb
  ∧ lastRefill (refill now tb) = now
  ∧ waitTimeout (refill now tb) = waitTimeout tb.
Proof.
  unfold refill. repeat case_decide; done.
Qed.

Lemma refill_in_range (now : Time) (tb : TokenBucket) :
  tokens_in_range tb → tokens_in_range (refill now tb).
Proof.
  unfold tokens_in_range, refill. intros [Hlo Hhi].
  repeat case_decide; cbn in *; split;
    first [done | apply Qcle_refl | now apply Qcnot_lt_le | qc_lra].
Qed.



(** ** The invariant [0 <= tokens <= capacity] *)

Lemma set_tokens_minus_1_in_range (tb : TokenBucket) :
  tokens_in_range tb → (1 ≤ tokens tb)%Qc →
  tokens_in_range (set_tokens (tokens tb - 1)%Qc tb).
Proof.
  unfold tokens_in_range. cbn. intros [Hlo Hhi] H1. split; qc_lra.
Qed.

Lemma Take_in_range (tb : TokenBucket) (env : Env) :
  tokens_in_range tb →
  tokens_in_range (Take tb env).1.2
  ∧ capacity (Take tb env).1.2 = capacity tb.
Proof.
  intros Hin. rewrite Take_unfold.
  pose proof (refill_in_range (clock env) tb Hin) as Hre.
  destruct (refill_frame (clock env) tb) as (Hc & _).
  case_decide; cbn; [|done].
  split; [|done]. now apply set_tokens_minus_1_in_range.
Qed.

Lemma TakeWithTimeout_unfold (tb : TokenBucket) (env : Env) :
  TakeWithTimeout tb env =
    if (Take tb env).1.1 then ((true, (Take tb env).1.2), (Take tb env).2)
    else Take (Take tb env).1.2
           (time_Sleep (timeToWait (Take tb env).1.2) (Take tb env).2).2.
Proof.
  unfold TakeWithTimeout, bind.
  destruct (Take tb env) as [[ok tb1] env1]. cbn.
  destruct ok; [done|]. now destruct (time_Sleep (timeToWait tb1) env1).
Qed.





(** ** How many calls of [Take] can succeed *)








(** ** [TakeWithTimeout] *)

Lemma new_events_app (l : list Event) (e e' : Env) :
  trace e' = l ++ trace e → new_events e e' = l.
Proof.
  intros Heq. unfold new_events. rewrite Heq, length_app.
  replace (length l + length (trace e) - length (trace e))%nat
    with (length l) by lia.
  now rewrite take_app_length.
Qed.

Lemma Take_frame (tb : TokenBucket) (env : Env) :
  (Take tb env).2 = env
  ∧ fillRate (Take tb env).1.2 = fillRate tb
  ∧ waitTimeout (Take tb env).1.2 = waitTimeout tb
  ∧ ((Take tb env).1.1 = false → (tokens (Take tb env).1.2 < 1)%Qc).
Proof.
  rewrite Take_unfold.
  destruct (refill_frame (clock env) tb) as (Hc & Hf & Hl & Hw).
  case_decide; cbn; repeat split; try done.
  intros _. now apply Qcnot_le_lt.
Qed.



Lemma Qc_pos_nonzero (x : Qc) : (0 < x)%Qc → x ≠ 0%Qc.
Proof.
  intros Hx Heq. symmetry in Heq. now apply Qclt_not_eq in Hx.
Qed.





End Limiter.

(** ** The theorems at work on concrete buckets *)





(** The end-to-end scenario: two calls with no time between them give
    [true] then [false]; a third call one second later gives [true]. *)
Example scenario_true_false_true :
  let first := Take unitBucket (quiet 0) in
  let second := Take first.1.2 first.2 in
  let third := Take second.1.2 (elapse 1000000000 second.2).2 in
  (first.1.1, second.1.1, third.1.1) = (true, false, true).
Proof. vm_compute. reflexivity. Qed.


(** * The rate limiter in binary64 *)

(** ** Rounding to the nearest float64 *)

Lemma rne_bounds (q : Q) :
  (q - (1 # 2) <= inject_Z (binary64.rne q) <= q + (1 # 2))%Q.
Proof.
  unfold binary64.rne.
  pose proof (Qfloor_le q) as Hlo. pose proof (Qlt_floor q) as Hhi.
  assert (Hsucc : (inject_Z (Qfloor q + 1) == inject_Z (Qfloor q) + 1)%Q)
    by now rewrite inject_Z_plus.
  rewrite Hsucc in Hhi.
  destruct (q - inject_Z (Qfloor q) ?= 1 # 2)%Q eqn:Hcmp.
  - apply Qeq_alt in Hcmp.
    destruct (Z.even (Qfloor q)); rewrite ?Hsucc; lra.
  - apply Qlt_alt in Hcmp. lra.
  - apply Qgt_alt in Hcmp. rewrite Hsucc. lra.
Qed.

Lemma rne_nonneg (q : Q) : (0 <= q)%Q → 0 <= binary64.rne q.
Proof.
  intros Hq. unfold binary64.rne.
  assert (0 <= Qfloor q).
  { rewrite <- (Qfloor_Z 0). now apply Qfloor_resp_le. }
  destruct (q - inject_Z (Qfloor q) ?= 1 # 2)%Q;
    [destruct (Z.even (Qfloor q))|..]; lia.
Qed.

Lemma two_pow_pos (z : Z) : (0 < 2 ^ z)%Q.
Proof. now apply Qpower_0_lt. Qed.

Lemma log2_bounds (p : positive) :
  (2 ^ Z.log2 (Zpos p) <= inject_Z (Zpos p))%Q
  ∧ (inject_Z (Zpos p) < 2 * 2 ^ Z.log2 (Zpos p))%Q.
Proof.
  destruct (Z.log2_spec (Zpos p)) as [Hlo Hhi]; [lia|].
  pose proof (Z.log2_nonneg (Zpos p)) as Hnn.
  rewrite <- (Zpower_Qpower 2) by done.
  split.
  - now rewrite <- Zle_Qle.
  - replace (2 * inject_Z (2 ^ Z.log2 (Z.pos p)))%Q
      with (inject_Z (2 * 2 ^ Z.log2 (Z.pos p))).
    + rewrite <- Zlt_Qlt. rewrite Z.pow_succ_r in Hhi by done. lia.
    + now rewrite inject_Z_mult.
Qed.

Lemma Qdiv_lt_cross (x y z w : Q) :
  (0 < y)%Q → (0 < w)%Q → (x * w < z * y)%Q → (x / y < z / w)%Q.
Proof.
  intros Hy Hw Hlt. apply Qlt_shift_div_r; [done|].
  assert (Heq : (z / w * y == z * y / w)%Q) by (field; lra).
  rewrite Heq. now apply Qlt_shift_div_l.
Qed.

Lemma ilog2_spec (q : Q) :
  (0 < q)%Q → (2 ^ binary64.ilog2 q <= q)%Q ∧ (q < 2 ^ (binary64.ilog2 q + 1))%Q.
Proof.
  intros Hq. destruct q as [n d]. unfold binary64.ilog2. cbn [Qnum Qden].
  destruct n as [|n|n];
    [unfold Qlt in Hq; cbn in Hq; lia| |unfold Qlt in Hq; cbn in Hq; lia].
  destruct (log2_bounds n) as [Hn1 Hn2], (log2_bounds d) as [Hd1 Hd2].
  set (a := Z.log2 (Z.pos n)) in *. set (b := Z.log2 (Z.pos d)) in *.
  pose proof (two_pow_pos a) as Ha. pose proof (two_pow_pos b) as Hb.
  assert (Hval : (Z.pos n # d == inject_Z (Z.pos n) / inject_Z (Z.pos d))%Q)
    by apply Qmake_Qdiv.
  assert (Hdpos : (0 < inject_Z (Z.pos d))%Q) by (now rewrite <- (Zlt_Qlt 0)).
  assert (Hk : (2 ^ (a - b) == 2 ^ a / 2 ^ b)%Q) by (now apply Qpower_minus).
  assert (Hk1 : (2 ^ (a - b + 1) == 2 ^ (a - b) * 2)%Q).
  { now rewrite Qpower_plus by done. }
  assert (Hkm : (2 ^ (a - b - 1) == 2 ^ (a - b) * (1 # 2))%Q).
  { unfold Z.sub at 1. now rewrite Qpower_plus by done. }
  assert (Hgoal :
    (if Qle_bool (2 ^ (a - b)) (Z.pos n # d) then
       (2 ^ (a - b) <= Z.pos n # d)%Q ∧ (Z.pos n # d < 2 ^ (a - b + 1))%Q
     else
       (2 ^ (a - b - 1) <= Z.pos n # d)%Q ∧ (Z.pos n # d < 2 ^ (a - b))%Q)).
  { assert (Htest : Qle_bool (2 ^ (a - b)) (Z.pos n # d) = true
                    ↔ (2 ^ (a - b) <= Z.pos n # d)%Q) by apply Qle_bool_iff.
    set (K1 := (2 ^ (a - b + 1))%Q) in *. clearbody K1.
    set (Km := (2 ^ (a - b - 1))%Q) in *. clearbody Km.
    set (K := (2 ^ (a - b))%Q) in *. clearbody K.
    set (N := inject_Z (Z.pos n)) in *. clearbody N.
    set (D := inject_Z (Z.pos d)) in *. clearbody D.
    set (A := (2 ^ a)%Q) in *. clearbody A.
    set (B := (2 ^ b)%Q) in *. clearbody B.
    assert (Hlow : (A / B * (1 # 2) < N / D)%Q).
    { assert (Heq : (A / B * (1 # 2) == A / (2 * B))%Q) by (field; lra).
      rewrite Heq. apply Qdiv_lt_cross; [lra|lra|nra]. }
    assert (Hupp : (N / D < A / B * 2)%Q).
    { assert (Heq : (A / B * 2 == (2 * A) / B)%Q) by (field; lra).
      rewrite Heq. apply Qdiv_lt_cross; [lra|lra|nra]. }
    destruct (Qle_bool K (Z.pos n # d)).
    - assert (K <= Z.pos n # d)%Q as Hle by now apply Htest.
      split; [done|]. rewrite Hval. lra.
    - assert (Z.pos n # d < K)%Q as Hlt.
      { apply Qnot_le_lt. intros Hle. apply Htest in Hle. discriminate. }
      split; [|done]. rewrite Hval in *. lra. }
  destruct (Qle_bool (2 ^ (a - b)) (Z.pos n # d)); [done|].
  now replace (a - b - 1 + 1) with (a - b) by lia.
Qed.

Lemma round_pos_eq (q : Q) :
  binary64.round_pos q = (inject_Z (binary64.rne (q * 2 ^ (- binary64.exponent q))) * 2 ^ binary64.exponent q)%Q.
Proof. reflexivity. Qed.

Lemma round_pos_bounds (q : Q) :
  (q - 2 ^ binary64.exponent q * (1 # 2) <= binary64.round_pos q
   <= q + 2 ^ binary64.exponent q * (1 # 2))%Q.
Proof.
  rewrite round_pos_eq.
  pose proof (rne_bounds (q * 2 ^ (- binary64.exponent q))) as [Hlo Hhi].
  pose proof (two_pow_pos (binary64.exponent q)) as HP.
  assert (Hinv : (2 ^ (- binary64.exponent q) * 2 ^ binary64.exponent q == 1)%Q).
  { rewrite <- Qpower_plus by done. now rewrite Z.add_opp_diag_l. }
  set (m := inject_Z (binary64.rne (q * 2 ^ (- binary64.exponent q)))) in *. clearbody m.
  set (P := (2 ^ binary64.exponent q)%Q) in *. clearbody P.
  set (I := (2 ^ (- binary64.exponent q))%Q) in *. clearbody I.
  assert (Hq : (q * I * P == q)%Q).
  { rewrite <- Qmult_assoc, Hinv. ring. }
  split.
  - apply (Qmult_le_compat_r _ _ P) in Hlo; [|lra].
    assert (Heq : ((q * I - (1 # 2)) * P == q * I * P - P * (1 # 2))%Q) by ring.
    rewrite Heq, Hq in Hlo. exact Hlo.
  - apply (Qmult_le_compat_r _ _ P) in Hhi; [|lra].
    assert (Heq : ((q * I + (1 # 2)) * P == q * I * P + P * (1 # 2))%Q) by ring.
    rewrite Heq, Hq in Hhi. exact Hhi.
Qed.

Lemma round_pos_nonneg (q : Q) : (0 <= q)%Q → (0 <= binary64.round_pos q)%Q.
Proof.
  intros Hq. rewrite round_pos_eq.
  pose proof (two_pow_pos (binary64.exponent q)) as HP.
  pose proof (two_pow_pos (- binary64.exponent q)) as HI.
  apply Qmult_le_0_compat; [|lra].
  change 0%Q with (inject_Z 0). rewrite <- Zle_Qle.
  apply rne_nonneg. apply Qmult_le_0_compat; lra.
Qed.

Lemma pow_half (k : Z) :
  (2 ^ (k - 52) * (1 # 2) == 2 ^ k * 2 ^ (-53))%Q.
Proof.
  replace (k - 52) with (k + (-53) + 1) by lia.
  rewrite !Qpower_plus by done. change (2 ^ 1)%Q with 2%Q.
  generalize (2 ^ k)%Q (2 ^ (-53))%Q. intros A U. ring.
Qed.

(** Half a unit in the last place, against the relative error [2^-53]
    and the absolute error [2^-1075] of the subnormal range. *)
Lemma half_ulp (q : Q) :
  (0 < q)%Q →
  (2 ^ binary64.exponent q * (1 # 2) <= q * 2 ^ (-53) + 2 ^ (-1075))%Q.
Proof.
  intros Hq. destruct (ilog2_spec q Hq) as [Hlo _].
  unfold binary64.exponent.
  pose proof (two_pow_pos (-53)) as Hu.
  pose proof (two_pow_pos (-1075)) as He.
  destruct (Z.max_spec (binary64.ilog2 q - 52) (-1074)) as [[_ ->]|[_ ->]].
  - change (2 ^ (-1074) * (1 # 2))%Q with (2 ^ (-1075))%Q at 1.
    assert (0 <= q * 2 ^ (-53))%Q by (apply Qmult_le_0_compat; lra). lra.
  - assert (Heq : (2 ^ (binary64.ilog2 q - 52) * (1 # 2) == 2 ^ binary64.ilog2 q * 2 ^ (-53))%Q).
    { apply pow_half. }
    rewrite Heq.
    apply (Qmult_le_compat_r _ _ (2 ^ (-53))) in Hlo; lra.
Qed.

Lemma half_ulp_normal (q : Q) :
  (2 ^ (-1022) <= q)%Q →
  (2 ^ binary64.exponent q * (1 # 2) <= q * 2 ^ (-53))%Q.
Proof.
  intros Hn.
  assert (Hq : (0 < q)%Q).
  { pose proof (two_pow_pos (-1022)). lra. }
  destruct (ilog2_spec q Hq) as [Hlo Hhi].
  assert (Hk : -1022 < binary64.ilog2 q + 1).
  { apply (Qpower_lt_compat_l_inv 2); [|done]. lra. }
  unfold binary64.exponent. rewrite Z.max_l by lia.
  assert (Heq : (2 ^ (binary64.ilog2 q - 52) * (1 # 2) == 2 ^ binary64.ilog2 q * 2 ^ (-53))%Q).
  { apply pow_half. }
  rewrite Heq. pose proof (two_pow_pos (-53)) as Hu.
  apply (Qmult_le_compat_r _ _ (2 ^ (-53))) in Hlo; lra.
Qed.

Lemma round64_pos (q : Q) : (0 < q)%Q → binary64.round64 q = binary64.round_pos q.
Proof.
  intros Hq. unfold binary64.round64. destruct q as [[|n|n] d]; cbn; try done;
    unfold Qlt in Hq; cbn in Hq; lia.
Qed.

Lemma round64_0 (q : Q) : (q == 0)%Q → binary64.round64 q = 0%Q.
Proof.
  intros Hq. unfold binary64.round64. destruct q as [[|n|n] d]; cbn; try done;
    unfold Qeq in Hq; cbn in Hq; lia.
Qed.

Lemma round64_nonneg (q : Q) : (0 <= q)%Q → (0 <= binary64.round64 q)%Q.
Proof.
  intros Hq. destruct (Qlt_le_dec 0 q) as [Hpos|Hle].
  - rewrite round64_pos by done. now apply round_pos_nonneg.
  - rewrite round64_0; [lra|]. apply Qle_antisym; lra.
Qed.

Lemma round64_upper (q : Q) :
  (0 <= q)%Q → (binary64.round64 q <= q + q * 2 ^ (-53) + 2 ^ (-1075))%Q.
Proof.
  intros Hq. destruct (Qlt_le_dec 0 q) as [Hpos|Hle].
  - rewrite round64_pos by done.
    pose proof (round_pos_bounds q) as [_ Hhi].
    pose proof (half_ulp q Hpos). lra.
  - rewrite round64_0 by (apply Qle_antisym; lra).
    pose proof (two_pow_pos (-53)). pose proof (two_pow_pos (-1075)).
    assert (q == 0)%Q as -> by (apply Qle_antisym; lra). lra.
Qed.

Lemma round64_upper_normal (q : Q) :
  (2 ^ (-1022) <= q)%Q → (binary64.round64 q <= q + q * 2 ^ (-53))%Q.
Proof.
  intros Hn. pose proof (two_pow_pos (-1022)).
  rewrite round64_pos by lra.
  pose proof (round_pos_bounds q) as [_ Hhi].
  pose proof (half_ulp_normal q Hn). lra.
Qed.

Lemma round64_lower_normal (q : Q) :
  (2 ^ (-1022) <= q)%Q → (q - q * 2 ^ (-53) <= binary64.round64 q)%Q.
Proof.
  intros Hn. pose proof (two_pow_pos (-1022)).
  rewrite round64_pos by lra.
  pose proof (round_pos_bounds q) as [Hlo _].
  pose proof (half_ulp_normal q Hn). lra.
Qed.

Lemma float64_nonneg (x : Qc) : (0 ≤ x)%Qc → (0 ≤ binary64.float64 x)%Qc.
Proof.
  intros Hx. unfold binary64.float64. qc_unfold.
  apply round64_nonneg. exact Hx.
Qed.

Lemma float64_0 : binary64.float64 0 = 0%Qc.
Proof. now apply Qc_is_canon. Qed.

Lemma float64_upper (x : Qc) :
  (0 ≤ x)%Qc →
  (binary64.float64 x ≤ x + x * binary64.u + binary64.eta)%Qc.
Proof.
  intros Hx. pose proof (round64_upper x Hx) as Hup.
  unfold binary64.float64, binary64.u, binary64.eta.
  qc_unfold. exact Hup.
Qed.

Lemma float64_upper_normal (x : Qc) :
  (binary64.tiny ≤ x)%Qc →
  (binary64.float64 x ≤ x + x * binary64.u)%Qc.
Proof.
  intros Hx. unfold binary64.tiny in Hx.
  assert (Hn : (2 ^ (-1022) <= x)%Q).
  { unfold Qcle in Hx. cbn [this Q2Qc] in Hx. now rewrite Qred_correct in Hx. }
  pose proof (round64_upper_normal x Hn) as Hup.
  unfold binary64.float64, binary64.u.
  qc_unfold. exact Hup.
Qed.

Lemma float64_lower_normal (x : Qc) :
  (binary64.tiny ≤ x)%Qc →
  (x - x * binary64.u ≤ binary64.float64 x)%Qc.
Proof.
  intros Hx. unfold binary64.tiny in Hx.
  assert (Hn : (2 ^ (-1022) <= x)%Q).
  { unfold Qcle in Hx. cbn [this Q2Qc] in Hx. now rewrite Qred_correct in Hx. }
  pose proof (round64_lower_normal x Hn) as Hlo.
  unfold binary64.float64, binary64.u.
  qc_unfold. exact Hlo.
Qed.

(** ** [Take] and [TakeWithTimeout], rounded *)

Section Binary64.

Context {rt : GoRuntime} {fpu : binary64.FPU}.

Lemma rounded_Take_unfold (tb : TokenBucket) (env : Env) :
  binary64.Take tb env =
    (if decide (1 ≤ tokens (binary64.refill (clock env) tb))%Qc
     then (true,
           set_tokens (binary64.sub (tokens (binary64.refill (clock env) tb)) 1)
             (binary64.refill (clock env) tb))
     else (false, binary64.refill (clock env) tb), env).
Proof.
  unfold binary64.Take, bind, time_Now, ret. now case_decide.
Qed.

Lemma rounded_refill_frame (now : Time) (tb : TokenBucket) :
  capacity (binary64.refill now tb) = capacity tb
  ∧ fillRate (binary64.refill now tb) = fillRate tb
  ∧ lastRefill (binary64.refill now tb) = now
  ∧ waitTimeout (binary64.refill now tb) = waitTimeout tb.
Proof.
  unfold binary64.refill. repeat case_decide; done.
Qed.

Lemma rounded_Take_frame (tb : TokenBucket) (env : Env) :
  (binary64.Take tb env).2 = env
  ∧ capacity (binary64.Take tb env).1.2 = capacity tb
  ∧ fillRate (binary64.Take tb env).1.2 = fillRate tb
  ∧ lastRefill (binary64.Take tb env).1.2 = clock env
  ∧ waitTimeout (binary64.Take tb env).1.2 = waitTimeout tb.
Proof.
  rewrite rounded_Take_unfold.
  destruct (rounded_refill_frame (clock env) tb) as (Hc & Hf & Hl & Hw).
  case_decide; cbn; repeat split; done.
Qed.

Lemma rounded_refill_min (now : Time) (tb : TokenBucket) :
  (tokens tb ≤ binary64.float64_of_int (capacity tb))%Qc →
  let e := binary64.Seconds (Sub now (lastRefill tb)) in
  let sum :=
    if decide (0 < binary64.mul e (fillRate tb))%Qc
    then binary64.add_product (tokens tb) e (fillRate tb)
    else tokens tb in
  binary64.refill now tb
  = set_tokens (Qc_min sum (binary64.float64_of_int (capacity tb)))
      (set_lastRefill now tb).
Proof.
  intros Hhi e sum. subst sum e. unfold binary64.refill, Qc_min.
  cbn [fillRate tokens capacity set_lastRefill set_tokens].
  destruct (decide (0 < binary64.mul _ _)%Qc) as [Hnew|Hnone].
  - destruct (decide (binary64.float64_of_int (capacity tb) < _)%Qc)
      as [Hover|Hfits];
      destruct (decide (_ ≤ binary64.float64_of_int (capacity tb))%Qc)
        as [Hle|Hgt]; try done.
    + exfalso. now apply Qclt_not_le in Hover.
    + exfalso. now apply Hgt, Qcnot_lt_le.
  - rewrite decide_True by done. done.
Qed.

(** C2, in the arithmetic of the code: from a state with
    [0 <= tokens <= float64(capacity)], [Take] computes
    [newTokens = e * fillRate] for the [e = Seconds()] since the last
    refill, every operation rounded to the nearest float64; when
    [newTokens > 0] it adds it to [tokens] (in one rounding with the
    product where the platform fuses them), and it replaces [tokens] by
    the smaller of that and the capacity.  If this is at least 1 it
    returns [true] and leaves the float64 nearest to one token less,
    otherwise [false] and the refilled balance.  The world is as it
    was: no sleep, no time spent. *)
Theorem Take_rounds_then_takes (tb : TokenBucket) (env : Env) :
  tokens_in_float_range tb →
  let e := binary64.Seconds (Sub (clock env) (lastRefill tb)) in
  let newTokens := binary64.mul e (fillRate tb) in
  let sum :=
    if decide (0 < newTokens)%Qc
    then binary64.add_product (tokens tb) e (fillRate tb)
    else tokens tb in
  let refilled := Qc_min sum (binary64.float64_of_int (capacity tb)) in
  binary64.Take tb env =
    (if decide (1 ≤ refilled)%Qc
     then (true, set_tokens (binary64.sub refilled 1)
                   (set_lastRefill (clock env) tb))
     else (false, set_tokens refilled (set_lastRefill (clock env) tb)),
     env).
Proof.
  intros [_ Hhi] e newTokens sum refilled.
  rewrite rounded_Take_unfold, (rounded_refill_min (clock env) tb Hhi).
  cbv zeta. fold e. fold newTokens. fold sum. fold refilled.
  cbn [tokens set_tokens]. now case_decide.
Qed.

Lemma rounded_TakeWithTimeout_unfold (tb : TokenBucket) (env : Env) :
  binary64.TakeWithTimeout tb env =
    if (binary64.Take tb env).1.1
    then ((true, (binary64.Take tb env).1.2), (binary64.Take tb env).2)
    else binary64.Take (binary64.Take tb env).1.2
           (time_Sleep (binary64.timeToWait (binary64.Take tb env).1.2)
              (binary64.Take tb env).2).2.
Proof.
  unfold binary64.TakeWithTimeout, bind.
  destruct (binary64.Take tb env) as [[ok tb1] env1]. cbn.
  destruct ok; [done|].
  now destruct (time_Sleep (binary64.timeToWait tb1) env1).
Qed.

(** C5, in the arithmetic of the code: if the first [Take] succeeds,
    [TakeWithTimeout] returns [true] with the world untouched (no
    sleep).  If it fails, the function computes
    [(1 - tokens) / fillRate * 1e9] in float64, converts it to whole
    nanoseconds (cut toward zero when it fits an [int64]; whatever the
    platform gives when [fillRate] is 0 or the value does not fit),
    replaces it by [waitTimeout] if it is larger, calls [time.Sleep]
    with it once, then calls [Take] once more and returns what that
    call returns. *)
Theorem TakeWithTimeout_sleeps_then_retries (tb : TokenBucket) (env : Env) :
  let tb1 := (binary64.Take tb env).1.2 in
  let tokensNeeded := binary64.sub 1 (tokens tb1) in
  let wait :=
    (λ q, binary64.mul q (binary64.float64_of_int Second))
      <$> binary64.div tokensNeeded (fillRate tb1) in
  let ns := int64_of_float64 wait in
  let d := if decide (waitTimeout tb < ns) then waitTimeout tb else ns in
  ((binary64.Take tb env).1.1 = true →
     binary64.TakeWithTimeout tb env = ((true, tb1), env))
  ∧ ((binary64.Take tb env).1.1 = false →
     binary64.TakeWithTimeout tb env = binary64.Take tb1 (time_Sleep d env).2
     ∧ new_events env (binary64.TakeWithTimeout tb env).2 = [EvSleep d])
  ∧ (∀ q, wait = Some q → in_int64 (Qc_trunc q) → ns = Qc_trunc q).
Proof.
  intros tb1 tokensNeeded wait ns d.
  destruct (rounded_Take_frame tb env) as (He & _ & _ & _ & Hw).
  assert (Hd : binary64.timeToWait tb1 = d).
  { subst d ns wait tokensNeeded. unfold binary64.timeToWait.
    fold tb1 in Hw. now rewrite Hw. }
  split; [|split].
  - intros Hok. now rewrite rounded_TakeWithTimeout_unfold, Hok, He.
  - intros Hok.
    assert (HT : binary64.TakeWithTimeout tb env
                 = binary64.Take tb1 (time_Sleep d env).2).
    { rewrite rounded_TakeWithTimeout_unfold, Hok, He. fold tb1.
      now rewrite Hd. }
    split; [done|]. rewrite HT.
    destruct (rounded_Take_frame tb1 (time_Sleep d env).2) as (-> & _).
    now apply (new_events_app [EvSleep d]).
  - intros q Hq Hfit. subst ns. rewrite Hq. unfold int64_of_float64.
    now rewrite decide_True.
Qed.

End Binary64.

(** * The client *)

Section Client.

Context {rt : GoRuntime}.

(** ** [authenticate] with a valid token *)

(** C10: with a non-empty access token and the clock before
    [tokenExpiry], [authenticate] returns [nil] at once: the client,
    its rate limiter included, and the world are left as they were (no
    token taken, no sleep, no log line, no request). *)
Theorem authenticate_valid_token_noop (r : RedditAPI)
    (env : Env) :
  accessToken r ≠ "" →
  clock env < tokenExpiry r →
  authenticate r env = ((None, r), env).
Proof.
  intros Htoken Hexpiry. unfold authenticate, bind at 1, time_Now.
  now destruct (decide (accessToken r ≠ "" ∧ clock env < tokenExpiry r))
    as [_|[]].
Qed.

(** ** Rate-limit headers *)

Lemma getHeaderAsInt_zero (h : gmap string (list string)) (name : string) :
  h !! name = None
  ∨ Atoi (Header_Get h name) = None
  ∨ Atoi (Header_Get h name) = Some 0 →
  getHeaderAsInt h name = 0.
Proof.
  unfold getHeaderAsInt. intros [Habs|[Herr|Hzero]].
  - unfold Header_Get. rewrite Habs. now case_decide.
  - rewrite Herr. now case_decide.
  - rewrite Hzero. now case_decide.
Qed.

(** C9: when [X-Ratelimit-Reset] and [X-Ratelimit-Used] are each
    absent, not a number, or the number 0, [updateRateLimits] returns
    with the client (cached remaining, reset and used, and the
    limiter's [fillRate]) and the world unchanged.  The function has no
    error result: a malformed header only makes its value 0. *)
Theorem updateRateLimits_skips_zero_headers (resp : Response)
    (r : RedditAPI) (env : Env) :
  (∀ name : string,
     name = "X-Ratelimit-Reset" ∨ name = "X-Ratelimit-Used" →
     Header resp !! name = None
     ∨ Atoi (Header_Get (Header resp) name) = None
     ∨ Atoi (Header_Get (Header resp) name) = Some 0) →
  updateRateLimits resp r env = (r, env).
Proof.
  intros Hzero. unfold updateRateLimits.
  rewrite (getHeaderAsInt_zero _ "X-Ratelimit-Reset") by (apply Hzero; auto).
  rewrite (getHeaderAsInt_zero _ "X-Ratelimit-Used") by (apply Hzero; auto).
  now destruct (decide (0 = 0 ∧ 0 = 0)) as [_|[]].
Qed.

(** ** What a call adds to the trace *)

Lemma adds_no_GET_refl (e : Env) : adds_no_GET e e.
Proof. now exists []. Qed.

Lemma adds_no_GET_trans (e1 e2 e3 : Env) :
  adds_no_GET e1 e2 → adds_no_GET e2 e3 → adds_no_GET e1 e3.
Proof.
  intros (l1 & H1 & F1) (l2 & H2 & F2). exists (l2 ++ l1). split.
  - now rewrite H2, H1, app_assoc.
  - now rewrite List.filter_app, F1, F2.
Qed.

Lemma adds_no_GET_cons (ev : Event) (e e' : Env) :
  trace e' = ev :: trace e → is_GET ev = false → adds_no_GET e e'.
Proof.
  intros Ht Hev. exists [ev]. split; [done|]. cbn. now rewrite Hev.
Qed.

Lemma bind_adds_no_GET {A B} (m : M A) (k : A → M B) (e : Env) :
  adds_no_GET e (m e).2 →
  (∀ a e1, adds_no_GET e1 (k a e1).2) →
  adds_no_GET e (bind m k e).2.
Proof.
  intros Hm Hk. unfold bind. destruct (m e) as [a e1]. cbn in Hm.
  eapply adds_no_GET_trans; [exact Hm|apply Hk].
Qed.

Lemma ret_adds_no_GET {A} (a : A) (e : Env) : adds_no_GET e (ret a e).2.
Proof. apply adds_no_GET_refl. Qed.

Lemma log_adds_no_GET (lvl : Level) (msg : string) (e : Env) :
  adds_no_GET e (log lvl msg e).2.
Proof. now apply (adds_no_GET_cons (EvLog lvl msg)). Qed.

Lemma time_Sleep_adds_no_GET (d : Duration) (e : Env) :
  adds_no_GET e (time_Sleep d e).2.
Proof. now apply (adds_no_GET_cons (EvSleep d)). Qed.

Lemma time_Now_adds_no_GET (e : Env) : adds_no_GET e (time_Now e).2.
Proof. apply adds_no_GET_refl. Qed.

Lemma Take_adds_no_GET (tb : TokenBucket) (e : Env) :
  adds_no_GET e (Take tb e).2.
Proof.
  destruct (Take_frame tb e) as (-> & _). apply adds_no_GET_refl.
Qed.

Create HintDb trace discriminated.

#[local] Hint Resolve adds_no_GET_refl ret_adds_no_GET log_adds_no_GET
  time_Sleep_adds_no_GET time_Now_adds_no_GET Take_adds_no_GET : trace.

(** A call that sends no GET, followed by the rest of the function. *)
Ltac quiet_bind :=
  apply bind_adds_no_GET; [solve [auto with trace]|].

(** The rest of a function that only logs, reads the clock and returns. *)
Ltac quiet_tail :=
  repeat first [solve [auto with trace] | quiet_bind; intros ? ?].

Lemma TakeWithTimeout_adds_no_GET (tb : TokenBucket) (e : Env) :
  adds_no_GET e (TakeWithTimeout tb e).2.
Proof.
  unfold TakeWithTimeout. quiet_bind.
  intros [[] tb1] e1; quiet_tail.
Qed.

Lemma updateRateLimits_adds_no_GET (resp : Response) (r : RedditAPI)
    (e : Env) :
  adds_no_GET e (updateRateLimits resp r e).2.
Proof.
  unfold updateRateLimits. case_decide; quiet_tail.
Qed.

#[local] Hint Resolve TakeWithTimeout_adds_no_GET
  updateRateLimits_adds_no_GET : trace.

Lemma http_Do_trace (req : Request) (e : Env) :
  trace (http_Do req e).2 = EvDo req (http_Do req e).1 :: trace e.
Proof.
  unfold http_Do. now destruct (network e) as [|[lat res] rest].
Qed.

Lemma http_Do_POST_adds_no_GET (req : Request) (e : Env) :
  Method req = "POST" → adds_no_GET e (http_Do req e).2.
Proof.
  intros Hpost. eapply adds_no_GET_cons; [apply http_Do_trace|].
  cbn. now rewrite Hpost.
Qed.

Lemma authenticate_adds_no_GET (r : RedditAPI) (e : Env) :
  adds_no_GET e (authenticate r e).2.
Proof.
  unfold authenticate. quiet_bind. intros now e1.
  case_decide; [quiet_tail|]. quiet_bind. intros _ e2.
  quiet_bind. intros [[] tb] e3; cbn [negb]; [|quiet_tail].
  quiet_bind. intros _ e4.
  unfold http_NewRequest. destruct (url_parses authURL); [|quiet_tail].
  apply bind_adds_no_GET; [now apply http_Do_POST_adds_no_GET|].
  intros [resp|] e5; [|quiet_tail]. quiet_bind. intros r1 e6.
  case_decide; [quiet_tail|].
  destruct (json_decode_auth (Body resp)); quiet_tail.
Qed.

#[local] Hint Resolve authenticate_adds_no_GET : trace.

(** ** [FetchPosts] *)

Lemma fetch_post_quiet (url : string) (e : Env)
    (res : option FetchResult * RedditAPI * Env) :
  adds_no_GET e res.2 → fetch_post url e res.
Proof.
  intros (evs & Ht & Hf). exists evs. split; [done|now left].
Qed.

Lemma fetch_post_prefix (url : string) (e e1 : Env)
    (res : option FetchResult * RedditAPI * Env) :
  adds_no_GET e e1 → fetch_post url e1 res → fetch_post url e res.
Proof.
  intros (l1 & H1 & F1) (evs & Ht & Hcases). exists (evs ++ l1). split.
  - now rewrite Ht, H1, app_assoc.
  - rewrite List.filter_app, F1, app_nil_r. exact Hcases.
Qed.

Lemma bind_fetch_post {A} (url : string) (m : M A)
    (k : A → M (option FetchResult * RedditAPI)) (e : Env) :
  adds_no_GET e (m e).2 →
  (∀ a e1, fetch_post url e1 (k a e1)) →
  fetch_post url e (bind m k e).
Proof.
  intros Hm Hk. unfold bind. destruct (m e) as [a e1]. cbn in Hm.
  eapply fetch_post_prefix; [exact Hm|apply Hk].
Qed.

Lemma fetch_post_GET (url : string) (e e1 : Env)
    (req : Request) (reply : option Response)
    (res : option FetchResult * RedditAPI * Env) :
  trace e1 = EvDo req reply :: trace e →
  Method req = "GET" →
  URL req = url →
  adds_no_GET e1 res.2 →
  (∀ resp, reply = Some resp → bad_response resp →
     res.1.1 = Some ([], "", Some (response_error resp))) →
  fetch_post url e res.
Proof.
  intros Ht Hm Hu (evs & Ht2 & Hf) Hres. exists (evs ++ [EvDo req reply]).
  split.
  - now rewrite Ht2, Ht, <- app_assoc.
  - right. exists req, reply. rewrite List.filter_app, Hf. cbn.
    rewrite Hm. now rewrite bool_decide_eq_true_2.
Qed.

Lemma fetch_url_clamped (subreddit : string) (limit : Z) (after : string) :
  fetch_url subreddit
    (if decide (limit <= 0 ∨ limit > 100) then defaultLimit else limit) after
  = fetch_url subreddit limit after.
Proof.
  unfold fetch_url, defaultLimit.
  destruct (decide (limit <= 0 ∨ limit > 100)) as [Hout|Hin].
  - now destruct (decide (100 <= 0 ∨ 100 > 100)) as [[]|_]; [lia|lia|].
  - now destruct (decide (limit <= 0 ∨ limit > 100)).
Qed.

Lemma FetchPosts_exchange (fuel : nat) (r : RedditAPI)
    (subreddit : string) (limit : Z) (after : string) (e : Env) :
  fetch_post (fetch_url subreddit limit after) e
    (FetchPosts fuel r subreddit limit after e).
Proof.
  revert r limit e. induction fuel as [|fuel IH]; intros r limit e.
  { apply fetch_post_quiet, adds_no_GET_refl. }
  cbn [FetchPosts].
  apply bind_fetch_post; [auto with trace|].
  intros [[err|] r1] e1.
  { apply fetch_post_quiet, adds_no_GET_refl. }
  apply bind_fetch_post; [auto with trace|].
  intros [[] tb] e2; cbn [negb].
  2:{ apply bind_fetch_post; [auto with trace|]. intros _ e3.
      apply bind_fetch_post; [auto with trace|]. intros _ e4.
      rewrite <- fetch_url_clamped. apply IH. }
  apply bind_fetch_post; [auto with trace|]. intros _ e3.
  unfold http_NewRequest.
  destruct (url_parses _); [|apply fetch_post_quiet, adds_no_GET_refl].
  unfold bind at 1.
  match goal with
  | |- context [http_Do ?req e3] =>
      pose proof (http_Do_trace req e3) as Htrace
  end.
  destruct (http_Do _ e3) as [reply e4]. cbn [fst snd] in Htrace.
  eapply fetch_post_GET; [exact Htrace|done| |..].
  - cbn [URL Header_Set]. unfold fetch_url, defaultLimit.
    destruct (decide (after = "")), (decide (after ≠ "")); done.
  - destruct reply as [resp|]; [|quiet_tail].
    quiet_bind. intros r2 e5.
    destruct (decide (StatusCode resp ≠ 200)); [quiet_tail|].
    destruct (json_decode_listing (Body resp)); quiet_tail.
  - intros resp -> Hbad. unfold bind at 1.
    destruct (updateRateLimits resp _ e4) as [r2 e5].
    unfold response_error. destruct (decide (StatusCode resp ≠ 200)).
    + done.
    + destruct Hbad as [Hstatus|Hdecode]; [done|]. now rewrite Hdecode.
Qed.

Lemma FetchPosts_new_events (fuel : nat) (r : RedditAPI)
    (subreddit : string) (limit : Z) (after : string) (e : Env) :
  let out := FetchPosts fuel r subreddit limit after e in
  List.filter is_GET (new_events e out.2) = []
  ∨ ∃ req reply,
      List.filter is_GET (new_events e out.2) = [EvDo req reply]
      ∧ URL req = fetch_url subreddit limit after
      ∧ ∀ resp, reply = Some resp → bad_response resp →
          out.1.1 = Some ([], "", Some (response_error resp)).
Proof.
  intros out.
  destruct (FetchPosts_exchange fuel r subreddit limit after e)
    as (evs & Htrace & Hcases).
  fold out in Htrace, Hcases.
  now rewrite (new_events_app evs e out.2 Htrace).
Qed.

(** C7: every GET that a call [FetchPosts(subreddit, limit, after)]
    sends goes to [/r/<subreddit>/new.json] with the page size 100 when
    [limit <= 0] or [limit > 100] and [limit] itself otherwise, and with
    [&after=<after>] appended only when [after] is not empty. *)
Theorem FetchPosts_request_url (fuel : nat) (r : RedditAPI)
    (subreddit : string) (limit : Z) (after : string) (e : Env)
    (req : Request) (reply : option Response) :
  In (EvDo req reply)
     (new_events e (FetchPosts fuel r subreddit limit after e).2) →
  Method req = "GET" →
  URL req =
    let size := if decide (limit <= 0 ∨ limit > 100) then 100 else limit in
    let newest :=
      baseURL +:+ "/r/" +:+ subreddit +:+ "/new.json?limit=" +:+ pretty size in
    if decide (after = "") then newest
    else newest +:+ "&after=" +:+ after.
Proof.
  intros Hin Hget. change (URL req = fetch_url subreddit limit after).
  assert (Hf : In (EvDo req reply)
                 (List.filter is_GET
                    (new_events e
                       (FetchPosts fuel r subreddit limit after e).2))).
  { apply List.filter_In. split; [done|]. cbn.
    now apply bool_decide_eq_true_2. }
  destruct (FetchPosts_new_events fuel r subreddit limit after e)
    as [Hnone|(req0 & reply0 & Hone & Hurl & _)].
  - rewrite Hnone in Hf. destruct Hf.
  - rewrite Hone in Hf. destruct Hf as [Heq|[]]. now inversion Heq; subst.
Qed.

(** C8: when the response to the GET of a call of [FetchPosts] has a
    status other than 200, or a body that does not decode, the call
    returns the error built for that response with no posts and an empty
    cursor, and that GET is the only one the call has sent. *)
Theorem FetchPosts_bad_response_no_retry (fuel : nat)
    (r : RedditAPI) (subreddit : string) (limit : Z) (after : string)
    (e : Env) (req : Request) (resp : Response) :
  let out := FetchPosts fuel r subreddit limit after e in
  In (EvDo req (Some resp)) (new_events e out.2) →
  Method req = "GET" →
  StatusCode resp ≠ 200 ∨ json_decode_listing (Body resp) = None →
  out.1.1
  = Some ([], "",
          Some (if decide (StatusCode resp ≠ 200)
                then ErrStatus (StatusCode resp) (Body resp)
                else ErrDecode))
  ∧ List.filter is_GET (new_events e out.2) = [EvDo req (Some resp)].
Proof.
  intros out Hin Hget Hbad.
  assert (Hf : In (EvDo req (Some resp))
                 (List.filter is_GET (new_events e out.2))).
  { apply List.filter_In. split; [done|]. cbn.
    now apply bool_decide_eq_true_2. }
  destruct (FetchPosts_new_events fuel r subreddit limit after e)
    as [Hnone|(req0 & reply0 & Hone & _ & Hres)];
    fold out in Hnone || fold out in Hone, Hres.
  - rewrite Hnone in Hf. destruct Hf.
  - rewrite Hone in Hf |- *. destruct Hf as [Heq|[]].
    inversion Heq; subst. split; [|done].
    now apply Hres.
Qed.

(** C6, as amended: when [authenticate] has returned [nil] and the
    [TakeWithTimeout] of [FetchPosts] fails, [FetchPosts] logs a
    warning, sleeps one second, and is the call of [FetchPosts] on the
    same subreddit, the clamped limit and the same cursor, which begins
    with [authenticate] again; nothing else is tested before that call
    (no counter, no cancellation).  An error of [authenticate] is
    returned as it is, with no posts and an empty cursor; one of these
    errors is the failure of the [TakeWithTimeout] inside
    [authenticate]. *)
Theorem FetchPosts_rate_limit_retry (fuel : nat)
    (r : RedditAPI) (subreddit : string) (limit : Z) (after : string)
    (e : Env) :
  let auth := authenticate r e in
  let acquire := TakeWithTimeout (rateLimiter auth.1.2) auth.2 in
  (auth.1.1 = None → acquire.1.1 = false →
     FetchPosts (S fuel) r subreddit limit after e
     = FetchPosts fuel (set_rateLimiter acquire.1.2 auth.1.2) subreddit
         (if decide (limit <= 0 ∨ limit > 100) then 100 else limit) after
         (time_Sleep Second
            (log WarnLevel "Rate limit exceeded, waiting before retrying"
               acquire.2).2).2)
  ∧ (∀ err, auth.1.1 = Some err →
       FetchPosts (S fuel) r subreddit limit after e
       = ((Some ([], "", Some err), auth.1.2), auth.2))
  ∧ (¬ (accessToken r ≠ "" ∧ clock e < tokenExpiry r) →
     (TakeWithTimeout (rateLimiter r)
        (log InfoLevel "Authenticating with Reddit API" e).2).1.1 = false →
     auth.1.1 = Some ErrAuthRateLimit).
Proof.
  intros auth acquire. split; [|split].
  - intros Hauth Hacq. cbn [FetchPosts]. unfold bind at 1.
    subst acquire. fold auth. destruct auth as [[err r1] e1].
    cbn [fst snd] in *. subst err. unfold bind at 1.
    destruct (TakeWithTimeout (rateLimiter r1) e1) as [[ok tb] e2].
    cbn [fst snd] in *. subst ok. cbn [negb]. reflexivity.
  - intros err Hauth. cbn [FetchPosts]. unfold bind at 1.
    fold auth. destruct auth as [[err1 r1] e1].
    cbn [fst snd] in *. now subst err1.
  - intros Hstale Hacq. subst auth. unfold authenticate.
    unfold bind at 1, time_Now.
    destruct (decide (accessToken r ≠ "" ∧ clock e < tokenExpiry r));
      [done|].
    unfold bind at 1. cbn [log record fst snd] in *. unfold bind at 1.
    destruct (TakeWithTimeout (rateLimiter r) _) as [[ok tb] e2].
    cbn [fst snd] in *. now subst ok.
Qed.

End Client.

(** ** The theorems at work on concrete clients *)

(** C6 as stated fails, in two runs of a client made by [NewRedditAPI]
    for one request per minute.  In the first, the token exchange got
    no answer and the client is asked to fetch again at once: the
    [TakeWithTimeout] inside [authenticate] waits its 30 seconds in
    vain and [FetchPosts] returns the rate-limit error, with no
    one-second delay and no retry.  In the second, the server grants a
    token that lasts 20 seconds: the [TakeWithTimeout] of [FetchPosts]
    fails, the fetch is retried after one second, and the retry, whose
    token has expired by then, returns the same error. *)
Lemma FetchPosts_returns_rate_limit_error :
  let again :=
    FetchPosts (rt := testRuntime) 1 afterFailedAuth.1.2 "golang" 100 ""
      afterFailedAuth.2 in
  let start := newClient [(0%N, Some briefReply)] in
  let retried :=
    FetchPosts (rt := testRuntime) 2 start.1 "golang" 100 "" start.2 in
  (afterFailedAuth.1.1 = Some ([], "", Some ErrAuthExecute)
   ∧ again.1.1 = Some ([], "", Some ErrAuthRateLimit)
   ∧ new_events afterFailedAuth.2 again.2
     = [EvSleep 30000000000;
        EvLog InfoLevel "Authenticating with Reddit API"])
  ∧ (retried.1.1 = Some ([], "", Some ErrAuthRateLimit)
     ∧ In (EvSleep Second) (new_events start.2 retried.2)
     ∧ In (EvLog WarnLevel "Rate limit exceeded, waiting before retrying")
          (new_events start.2 retried.2)).
Proof.
  split.
  - vm_compute. done.
  - split; [vm_compute; reflexivity|].
    split; vm_compute; tauto.
Qed.

Lemma FetchPosts_rate_limit_retry_witness :
  (FetchPosts (rt := testRuntime) 1 (newClient [(0%N, Some tokenReply)]).1
     "golang" 100 "" (newClient [(0%N, Some tokenReply)]).2).1.1
  = None.
Proof.
  destruct (FetchPosts_rate_limit_retry (rt := testRuntime) 0
              (newClient [(0%N, Some tokenReply)]).1 "golang" 100 ""
              (newClient [(0%N, Some tokenReply)]).2) as [Hretry _].
  rewrite Hretry.
  - reflexivity.
  - vm_compute. reflexivity.
  - vm_compute. reflexivity.
Defined.

Lemma FetchPosts_request_url_witness :
  ∃ req reply,
    In (EvDo req reply)
       (new_events (serving 0 [(0%N, Some busyReply)])
          (FetchPosts (rt := testRuntime) 1 readyClient "golang" 250 ""
             (serving 0 [(0%N, Some busyReply)])).2)
    ∧ URL req = "https://oauth.reddit.com/r/golang/new.json?limit=100".
Proof.
  assert (Hsent : ∃ req reply,
    In (EvDo req reply)
       (new_events (serving 0 [(0%N, Some busyReply)])
          (FetchPosts (rt := testRuntime) 1 readyClient "golang" 250 ""
             (serving 0 [(0%N, Some busyReply)])).2)
    ∧ Method req = "GET").
  { eexists _, _. split; [vm_compute; right; left; reflexivity|reflexivity]. }
  destruct Hsent as (req & reply & Hin & Hget).
  exists req, reply. split; [exact Hin|].
  rewrite (FetchPosts_request_url (rt := testRuntime) 1 readyClient "golang"
             250 "" (serving 0 [(0%N, Some busyReply)]) req reply Hin Hget).
  vm_compute. reflexivity.
Defined.

Lemma FetchPosts_bad_response_no_retry_witness :
  (FetchPosts (rt := testRuntime) 1 readyClient "golang" 250 ""
     (serving 0 [(0%N, Some busyReply)])).1.1
  = Some ([], "", Some (ErrStatus 503 "busy")).
Proof.
  assert (Hsent : ∃ req,
    In (EvDo req (Some busyReply))
       (new_events (serving 0 [(0%N, Some busyReply)])
          (FetchPosts (rt := testRuntime) 1 readyClient "golang" 250 ""
             (serving 0 [(0%N, Some busyReply)])).2)
    ∧ Method req = "GET").
  { eexists. split; [vm_compute; right; left; reflexivity|reflexivity]. }
  destruct Hsent as (req & Hin & Hget).
  destruct (FetchPosts_bad_response_no_retry (rt := testRuntime) 1 readyClient
              "golang" 250 "" (serving 0 [(0%N, Some busyReply)]) req
              busyReply Hin Hget) as [Hres _].
  { left. vm_compute. discriminate. }
  rewrite Hres. vm_compute. reflexivity.
Defined.

Lemma updateRateLimits_skips_zero_headers_witness :
  updateRateLimits pageReply readyClient (quiet 0) = (readyClient, quiet 0).
Proof.
  apply updateRateLimits_skips_zero_headers.
  intros name [->| ->].
  - right. left. vm_compute. reflexivity.
  - left. vm_compute. reflexivity.
Defined.

Lemma authenticate_valid_token_noop_witness :
  authenticate (rt := testRuntime) readyClient (quiet 0)
  = ((None, readyClient), quiet 0).
Proof.
  apply authenticate_valid_token_noop.
  - vm_compute. discriminate.
  - closed_order.
Defined.

(** The cases of the repository's test of [getHeaderAsInt]. *)
Example getHeaderAsInt_cases :
  getHeaderAsInt {[ "X-Ratelimit-Remaining" := ["42"] ]}
    "X-Ratelimit-Remaining" = 42
  ∧ getHeaderAsInt {[ "X-Ratelimit-Remaining" := [""] ]}
      "X-Ratelimit-Remaining" = 0
  ∧ getHeaderAsInt {[ "X-Ratelimit-Used" := ["10"] ]}
      "X-Ratelimit-Remaining" = 0
  ∧ getHeaderAsInt {[ "X-Ratelimit-Remaining" := ["not-a-number"] ]}
      "X-Ratelimit-Remaining" = 0
  ∧ getHeaderAsInt {[ "X-Ratelimit-Remaining" := ["100"; "200"] ]}
      "X-Ratelimit-Remaining" = 100.
Proof. vm_compute. done. Qed.

(** A fetch that is granted a token at its fourth attempt. *)
Example FetchPosts_retries_then_fetches :
  let start :=
    newClient [(0%N, Some tokenReply); (0%N, Some pageReply)] in
  (FetchPosts (rt := testRuntime) 3 start.1 "golang" 100 "" start.2).1.1
  = None
  ∧ (FetchPosts (rt := testRuntime) 4 start.1 "golang" 100 "" start.2).1.1
    = Some ([], "t3_next", None).
Proof. vm_compute. done. Qed.

(** * More on the rate limiter *)

Section LimiterMore.

Context {rt : GoRuntime}.

Lemma Seconds_le (a b : Duration) : a <= b → (Seconds a ≤ Seconds b)%Qc.
Proof.
  intros Hab. replace b with (a + (b - a)) by lia. rewrite Seconds_add.
  assert (0 ≤ Seconds (b - a))%Qc by (apply Seconds_nonneg; lia).
  qc_lra.
Qed.


Lemma Take_succeeds_iff (tb : TokenBucket) (env : Env) :
  (Take tb env).1.1 = true ↔ (1 ≤ tokens (refill (clock env) tb))%Qc.
Proof.
  rewrite Take_unfold. case_decide; cbn; split; done.
Qed.

Lemma refill_mono (tb : TokenBucket) (t1 t2 : Time) :
  (tokens tb ≤ float64_of_int (capacity tb))%Qc →
  (0 ≤ fillRate tb)%Qc →
  t1 <= t2 →
  (tokens (refill t1 tb) ≤ tokens (refill t2 tb))%Qc.
Proof.
  intros Hhi Hrate Ht.
  assert (Hp : (Seconds (Sub t1 (lastRefill tb)) * fillRate tb
                ≤ Seconds (Sub t2 (lastRefill tb)) * fillRate tb)%Qc).
  { apply Qcmult_le_mono_nonneg_r; [done|].
    apply Seconds_le. unfold Sub. lia. }
  unfold refill. cbn [fillRate set_lastRefill lastRefill]. revert Hp.
  generalize (Seconds (Sub t1 (lastRefill tb)) * fillRate tb)%Qc.
  generalize (Seconds (Sub t2 (lastRefill tb)) * fillRate tb)%Qc.
  intros p2 p1 Hp. clear Ht Hrate.
  repeat case_decide; cbn in *;
    first [apply Qcle_refl | qc_lra].
Qed.

(** X1: waiting longer never hurts.  For a bucket with
    [tokens <= capacity] and [fillRate >= 0], if a call of [Take] at
    some time would succeed, the same call at any later time succeeds
    too. *)
Theorem Take_later_succeeds (tb : TokenBucket) (env env' : Env) :
  (tokens tb ≤ float64_of_int (capacity tb))%Qc →
  (0 ≤ fillRate tb)%Qc →
  clock env <= clock env' →
  (Take tb env).1.1 = true →
  (Take tb env').1.1 = true.
Proof.
  intros Hhi Hrate Hclock. rewrite !Take_succeeds_iff. intros Hok.
  eapply Qcle_trans; [exact Hok|]. now apply refill_mono.
Qed.










End LimiterMore.

(** * More on the rate-limit headers *)

Section Headers.

Lemma Atoi_in_int64 (s : string) (n : Z) : Atoi s = Some n → in_int64 n.
Proof.
  unfold Atoi. destruct s as [|c rest]; [done|].
  destruct (if decide (c = "-"%char ∨ c = "+"%char) then rest else String c rest);
    [done|].
  destruct (parse_digits _ 0); [|done].
  case_decide; [|done]. now intros [= <-].
Qed.








End Headers.

(** * More on the client *)

Section ClientMore.

Context {rt : GoRuntime}.

(** A property of what a call returns, carried along a chain of calls. *)
Lemma bind_result {A B} (m : M A) (k : A → M B) (Q : A → Prop)
    (R : B → Prop) (e : Env) :
  Q (m e).1 → (∀ a e1, Q a → R (k a e1).1) → R (bind m k e).1.
Proof.
  intros Hm Hk. unfold bind. destruct (m e) as [a e1]. now apply Hk.
Qed.

Lemma nominalRate_positive : (0 < nominalRate)%Qc.
Proof. reflexivity. Qed.

Lemma Take_bucket_ok (tb : TokenBucket) (e : Env) :
  bucket_ok tb → bucket_ok (Take tb e).1.2.
Proof.
  intros (Hc & Hin & Hr).
  destruct (Take_in_range tb e Hin) as [Hin1 Hc1].
  destruct (Take_frame tb e) as (_ & Hf & _).
  split; [congruence|]. split; [done|]. now rewrite Hf.
Qed.

Lemma TakeWithTimeout_bucket_ok (tb : TokenBucket) (e : Env) :
  bucket_ok tb → bucket_ok (TakeWithTimeout tb e).1.2.
Proof.
  intros Hok. rewrite TakeWithTimeout_unfold.
  pose proof (Take_bucket_ok tb e Hok) as Hok1.
  destruct (Take tb e).1.1; [done|]. now apply Take_bucket_ok.
Qed.

Lemma updateRateLimits_limiter_ok (resp : Response) (r : RedditAPI)
    (e : Env) :
  limiter_ok r → limiter_ok (updateRateLimits resp r e).1.
Proof.
  intros (Hc & Hin & Hr). unfold updateRateLimits.
  case_decide; [done|]. cbn.
  split; [done|]. split; [done|]. apply nominalRate_positive.
Qed.

Lemma authenticate_limiter_ok (r : RedditAPI) (e : Env) :
  limiter_ok r → limiter_ok (authenticate r e).1.2.
Proof.
  intros Hok. unfold authenticate.
  apply (bind_result _ _ (λ _, True)); [done|]. intros now e1 _.
  case_decide; [done|].
  apply (bind_result _ _ (λ _, True)); [done|]. intros _ e2 _.
  apply (bind_result _ _ (λ a, bucket_ok a.2));
    [now apply TakeWithTimeout_bucket_ok|].
  intros [[] tb] e3 Htb; cbn [negb]; [|done].
  apply (bind_result _ _ (λ _, True)); [done|]. intros _ e4 _.
  unfold http_NewRequest. destruct (url_parses authURL); [|done].
  apply (bind_result _ _ (λ _, True)); [done|]. intros [resp|] e5 _; [|done].
  apply (bind_result _ _ limiter_ok);
    [now apply updateRateLimits_limiter_ok|].
  intros r1 e6 Hr1. case_decide; [done|].
  destruct (json_decode_auth (Body resp)); [|done].
  apply (bind_result _ _ (λ _, True)); [done|]. intros now2 e7 _.
  now apply (bind_result _ _ (λ _, True)).
Qed.

(** X7: for a budget [m <= 0] (replaced by 100) or [m > 0] with
    [m * 10] within a 64-bit [int], the client that [NewRedditAPI]
    makes has a limiter of capacity 1 holding one token, with a
    positive fill rate, [(m * 10 / 600) * 0.95] when [m > 0]; it holds
    no access token, and its cached rate snapshot is (0, 600, 0). *)
Theorem NewRedditAPI_limiter_ok (clientID clientSecret userAgent : string)
    (m : Z) (e : Env) :
  m * 10 <= max_int64 →
  let r := (NewRedditAPI clientID clientSecret userAgent m e).1 in
  limiter_ok r
  ∧ tokens (rateLimiter r) = 1%Qc
  ∧ (0 < m →
     fillRate (rateLimiter r)
     = (float64_of_int (m * 10) / float64_of_int 600 * Q2Qc (95 # 100))%Qc)
  ∧ accessToken r = ""
  ∧ GetRateLimitStatus r = (0, 600, 0).
Proof.
  intros Hfit r. subst r. unfold NewRedditAPI, NewTokenBucket, bind, time_Now.
  cbn [fst ret rateLimiter accessToken GetRateLimitStatus
       rateRemainingCached rateResetCached rateUsedCached].
  assert (Hwrap : ∀ k, 0 < k → k * 10 <= max_int64 → wrap64 (k * 10) = k * 10).
  { intros k Hk Hmax. unfold wrap64, max_int64 in *.
    rewrite Z.mod_small; lia. }
  assert (Hrate : ∀ k, 0 < k →
    (0 < float64_of_int (k * 10) / float64_of_int 600 * Q2Qc (95 # 100))%Qc).
  { intros k Hk. apply Qcmult_pos_pos; [|reflexivity].
    unfold Qcdiv. apply Qcmult_pos_pos; [|reflexivity].
    apply (Qc_of_Z_lt 0). lia. }
  destruct (decide (m <= 0)) as [Hle|Hgt].
  - repeat split; first [done | lia | now apply (Hrate 100)].
  - rewrite Hwrap by lia.
    repeat split; first [done | apply Hrate; lia].
Qed.

Lemma FetchPosts_keeps_limiter (fuel : nat) (r : RedditAPI)
    (subreddit : string) (limit : Z) (after : string) (e : Env) :
  limiter_ok r → limiter_ok (FetchPosts fuel r subreddit limit after e).1.2.
Proof.
  revert r limit e. induction fuel as [|fuel IH]; intros r limit e Hok;
    [done|].
  cbn [FetchPosts].
  apply (bind_result _ _ (λ a, limiter_ok a.2));
    [now apply authenticate_limiter_ok|].
  intros [[err|] r1] e1 Hr1; [done|].
  apply (bind_result _ _ (λ a, bucket_ok a.2));
    [now apply TakeWithTimeout_bucket_ok|].
  intros [[] tb] e2 Htb; cbn [negb].
  2:{ apply (bind_result _ _ (λ _, True)); [done|]. intros _ e3 _.
      unfold bind. destruct (time_Sleep Second e3) as [[] e4].
      now apply IH. }
  apply (bind_result _ _ (λ _, True)); [done|]. intros _ e3 _.
  unfold http_NewRequest. destruct (url_parses _); [|done].
  apply (bind_result _ _ (λ _, True)); [done|]. intros [resp|] e4 _; [|done].
  apply (bind_result _ _ limiter_ok);
    [now apply updateRateLimits_limiter_ok|].
  intros r2 e5 Hr2. destruct (decide (StatusCode resp ≠ 200)).
  - now apply (bind_result _ _ (λ _, True)).
  - destruct (json_decode_listing (Body resp)); [|done].
    apply (bind_result _ _ (λ _, True)); [done|]. intros now e6 _.
    now apply (bind_result _ _ (λ _, True)).
Qed.

(** X8: a client whose limiter has capacity 1, a balance between 0 and
    1 and a positive fill rate still has such a limiter after
    [authenticate] and after [FetchPosts], however they end: with an
    error, with posts, or after any number of retries. *)
Theorem client_keeps_limiter_ok (fuel : nat) (r : RedditAPI)
    (subreddit : string) (limit : Z) (after : string) (e : Env) :
  limiter_ok r →
  limiter_ok (authenticate r e).1.2
  ∧ limiter_ok (FetchPosts fuel r subreddit limit after e).1.2.
Proof.
  intros Hok. split.
  - now apply authenticate_limiter_ok.
  - now apply FetchPosts_keeps_limiter.
Qed.

(** X9: the budget given to [NewRedditAPI] survives the first response
    with usable rate-limit headers only when it is 100 requests per
    minute: for a budget [m > 0], the fill rate that [Update] installs
    is the fill rate of the new client exactly when [m = 100]. *)
Theorem NewRedditAPI_rate_survives_Update_iff
    (clientID clientSecret userAgent : string) (m : Z) (e : Env)
    (used reset maxRequests : Z) :
  0 < m →
  m * 10 <= max_int64 →
  let tb := rateLimiter (NewRedditAPI clientID clientSecret userAgent m e).1 in
  Update used reset maxRequests tb = tb ↔ m = 100.
Proof.
  intros Hpos Hfit tb.
  assert (Hrate : fillRate tb
    = (float64_of_int (m * 10) / float64_of_int 600 * Q2Qc (95 # 100))%Qc).
  { subst tb. unfold NewRedditAPI, NewTokenBucket, bind, time_Now. cbn.
    destruct (decide (m <= 0)); [lia|].
    unfold wrap64, max_int64 in *. rewrite Z.mod_small by lia.
    now replace (m * 10 + 2 ^ 63 - 2 ^ 63) with (m * 10) by lia. }
  clearbody tb. rewrite Update_eq. split.
  - intros Heq. apply (f_equal fillRate) in Heq.
    cbn [fillRate set_fillRate] in Heq.
    rewrite Hrate in Heq. unfold nominalRate in Heq.
    apply rate_of_total_inj in Heq. lia.
  - intros ->. destruct tb as [c t f l w]. cbn in Hrate.
    unfold set_fillRate. cbn. f_equal. now rewrite Hrate.
Qed.

(** X10: when the headers of a response give a reset or a used count
    other than 0, [updateRateLimits] caches the three header values, so
    that [GetRateLimitStatus] returns them, and sets the limiter's fill
    rate to [(1000 / 600) * 0.95]; the balance of the limiter, the
    access token and the credentials are left as they were. *)
Theorem updateRateLimits_caches_headers (resp : Response) (r : RedditAPI)
    (e : Env) :
  let used := getHeaderAsInt (Header resp) "X-Ratelimit-Used" in
  let remaining := getHeaderAsInt (Header resp) "X-Ratelimit-Remaining" in
  let reset := getHeaderAsInt (Header resp) "X-Ratelimit-Reset" in
  reset ≠ 0 ∨ used ≠ 0 →
  let r' := (updateRateLimits resp r e).1 in
  GetRateLimitStatus r' = (remaining, reset, used)
  ∧ fillRate (rateLimiter r')
    = (float64_of_int 1000 / float64_of_int 600 * Q2Qc (95 # 100))%Qc
  ∧ tokens (rateLimiter r') = tokens (rateLimiter r)
  ∧ same_token r r'
  ∧ same_identity r r'.
Proof.
  intros used remaining reset Hsome r'. subst r'. unfold updateRateLimits.
  fold used remaining reset.
  destruct (decide (reset = 0 ∧ used = 0)) as [[??]|_]; [lia|].
  cbn. repeat split.
Qed.

Lemma updateRateLimits_frame (resp : Response) (r : RedditAPI) (e : Env) :
  same_identity r (updateRateLimits resp r e).1
  ∧ same_token r (updateRateLimits resp r e).1.
Proof.
  unfold updateRateLimits. case_decide; cbn; repeat split.
Qed.

(** X11: [authenticate] never changes the credentials, the user agent
    or the budget of the client; and when it returns an error, the
    access token and its expiry are the ones the client had. *)
Theorem authenticate_error_keeps_token (r : RedditAPI) (e : Env) :
  same_identity r (authenticate r e).1.2
  ∧ ((authenticate r e).1.1 ≠ None → same_token r (authenticate r e).1.2).
Proof.
  set (R := λ res : option error * RedditAPI,
         same_identity r res.2 ∧ (res.1 ≠ None → same_token r res.2)).
  change (R (authenticate r e).1).
  assert (Hrefl : same_identity r r ∧ same_token r r) by (repeat split).
  unfold authenticate.
  apply (bind_result _ _ (λ _, True)); [done|]. intros now e1 _.
  case_decide; [now split|].
  apply (bind_result _ _ (λ _, True)); [done|]. intros _ e2 _.
  apply (bind_result _ _ (λ _, True)); [done|].
  intros [[] tb] e3 _; cbn [negb]; [|now repeat split].
  apply (bind_result _ _ (λ _, True)); [done|]. intros _ e4 _.
  unfold http_NewRequest.
  destruct (url_parses authURL); [|now repeat split].
  apply (bind_result _ _ (λ _, True)); [done|].
  intros [resp|] e5 _; [|now repeat split].
  apply (bind_result _ _
           (λ r1, same_identity r r1 ∧ same_token r r1)).
  { destruct (updateRateLimits_frame resp (set_rateLimiter tb r) e5)
      as [Hid Htok]. split; [apply Hid|apply Htok]. }
  intros r1 e6 [Hid Htok]. case_decide; [now split|].
  destruct (json_decode_auth (Body resp)); [|now split].
  apply (bind_result _ _ (λ _, True)); [done|]. intros now2 e7 _.
  apply (bind_result _ _ (λ _, True)); [done|]. intros _ e8 _.
  split; [exact Hid|done].
Qed.

(** X13: whenever [FetchPosts] returns an error, it returns no posts and
    an empty cursor with it. *)
Theorem FetchPosts_error_is_empty (fuel : nat) (r : RedditAPI)
    (subreddit : string) (limit : Z) (after : string) (e : Env)
    (posts : list Post) (cursor : string) (err : error) :
  (FetchPosts fuel r subreddit limit after e).1.1
  = Some (posts, cursor, Some err) →
  posts = [] ∧ cursor = "".
Proof.
  set (R := λ res : option FetchResult * RedditAPI,
         res.1 = Some (posts, cursor, Some err) → posts = [] ∧ cursor = "").
  change (R (FetchPosts fuel r subreddit limit after e).1).
  revert r limit e. induction fuel as [|fuel IH]; intros r limit e; [done|].
  cbn [FetchPosts].
  apply (bind_result _ _ (λ _, True)); [done|].
  intros [[err1|] r1] e1 _; [now intros [= <- <- _]|].
  apply (bind_result _ _ (λ _, True)); [done|].
  intros [[] tb] e2 _; cbn [negb].
  2:{ apply (bind_result _ _ (λ _, True)); [done|]. intros _ e3 _.
      unfold bind. destruct (time_Sleep Second e3) as [[] e4]. apply IH. }
  apply (bind_result _ _ (λ _, True)); [done|]. intros _ e3 _.
  unfold http_NewRequest.
  destruct (url_parses _); [|now intros [= <- <- _]].
  apply (bind_result _ _ (λ _, True)); [done|].
  intros [resp|] e4 _; [|now intros [= <- <- _]].
  apply (bind_result _ _ (λ _, True)); [done|]. intros r2 e5 _.
  destruct (decide (StatusCode resp ≠ 200)).
  - apply (bind_result _ _ (λ _, True)); [done|]. intros _ e6 _.
    now intros [= <- <- _].
  - destruct (json_decode_listing (Body resp)); [|now intros [= <- <- _]].
    apply (bind_result _ _ (λ _, True)); [done|]. intros now e6 _.
    apply (bind_result _ _ (λ _, True)); [done|]. intros _ e7 _.
    now intros [= _ _].
Qed.

Lemma TakeWithTimeout_network (tb : TokenBucket) (e : Env) :
  network (TakeWithTimeout tb e).2 = network e.
Proof.
  rewrite TakeWithTimeout_unfold.
  destruct (Take_frame tb e) as (He & _).
  destruct (Take tb e).1.1; [cbn [snd]; now rewrite He|].
  destruct (Take_frame (Take tb e).1.2
              (time_Sleep (timeToWait (Take tb e).1.2) (Take tb e).2).2)
    as (-> & _).
  cbn [time_Sleep snd network]. now rewrite He.
Qed.

Lemma updateRateLimits_world (resp : Response) (r : RedditAPI) (e : Env) :
  network (updateRateLimits resp r e).2 = network e
  ∧ clock (updateRateLimits resp r e).2 = clock e
  ∧ adds_no_GET e (updateRateLimits resp r e).2.
Proof.
  split; [|split].
  - unfold updateRateLimits. now case_decide.
  - unfold updateRateLimits. now case_decide.
  - unfold updateRateLimits. case_decide.
    + apply adds_no_GET_refl.
    + now apply (adds_no_GET_cons
        (EvLog DebugLevel "Updated rate limiter based on Reddit headers")).
Qed.

(** X12: a client without a valid token, whose limiter grants a token,
    and whose token exchange is answered with status 200 and a body
    that decodes, gets [nil] from [authenticate]: it has sent the
    credentials by basic auth to the token endpoint, it holds the access
    token of the response, valid for [expires_in] seconds from the
    time of the answer, and it has used up one reply of the network.
    If that token is not empty and lasts a positive time, calling
    [authenticate] again at once changes nothing. *)
Theorem authenticate_fetches_token (r : RedditAPI) (e : Env) (lat : N)
    (resp : Response) (rest : list (N * option Response)) (a : authResp) :
  ¬ (accessToken r ≠ "" ∧ clock e < tokenExpiry r) →
  (TakeWithTimeout (rateLimiter r)
     (log InfoLevel "Authenticating with Reddit API" e).2).1.1 = true →
  url_parses authURL = true →
  network e = (lat, Some resp) :: rest →
  StatusCode resp = 200 →
  json_decode_auth (Body resp) = Some a →
  let out := authenticate r e in
  out.1.1 = None
  ∧ accessToken out.1.2 = AccessToken a
  ∧ tokenExpiry out.1.2 = clock out.2 + wrap64 (ExpiresIn a * Second)
  ∧ In (EvDo (tokenRequest r) (Some resp)) (trace out.2)
  ∧ network out.2 = rest
  ∧ (AccessToken a ≠ "" → 0 < wrap64 (ExpiresIn a * Second) →
     authenticate out.1.2 out.2 = ((None, out.1.2), out.2)).
Proof.
  intros Hstale Hacq Hurl Hnet Hstatus Hdecode out.
  assert (Hout : ∃ r' e',
    authenticate r e = ((None, r'), e')
    ∧ accessToken r' = AccessToken a
    ∧ tokenExpiry r' = clock e' + wrap64 (ExpiresIn a * Second)
    ∧ In (EvDo (tokenRequest r) (Some resp)) (trace e')
    ∧ network e' = rest).
  { unfold authenticate. unfold bind at 1. cbn [time_Now].
    destruct (decide (accessToken r ≠ "" ∧ clock e < tokenExpiry r));
      [done|].
    unfold bind at 1.
    destruct (log InfoLevel "Authenticating with Reddit API" e)
      as [[] e1] eqn:Hlog.
    assert (Hnet1 : network e1 = network e) by now inversion Hlog.
    cbn [snd] in Hacq. unfold bind at 1.
    pose proof (TakeWithTimeout_network (rateLimiter r) e1) as Hnet2.
    destruct (TakeWithTimeout (rateLimiter r) e1) as [[ok tb] e2].
    cbn [fst snd] in Hacq, Hnet2. subst ok. cbn [negb].
    unfold bind at 1. cbn [log record].
    unfold http_NewRequest. rewrite Hurl. unfold bind at 1.
    unfold http_Do at 1. cbn [network].
    rewrite Hnet2, Hnet1, Hnet.
    unfold bind at 1.
    match goal with
    | |- context [updateRateLimits resp ?r0 ?e0] =>
        destruct (updateRateLimits_world resp r0 e0)
          as (Hn & Hc & (evs & Ht & _))
    end.
    destruct (updateRateLimits resp _ _) as [r1 e3].
    cbn [fst snd network clock trace] in Hn, Hc, Ht.
    destruct (decide (StatusCode resp ≠ 200)); [done|].
    rewrite Hdecode. cbn.
    eexists _, _. split; [reflexivity|]. cbn.
    repeat split; try done.
    right. rewrite Ht. apply in_or_app. right. now left. }
  destruct Hout as (r' & e' & Heq & Htok & Hexp & Hin & Hrest).
  subst out. rewrite Heq. cbn [fst snd].
  repeat split; try done.
  intros Hne Hlast. unfold authenticate. unfold bind at 1. cbn [time_Now].
  destruct (decide (accessToken r' ≠ "" ∧ clock e' < tokenExpiry r'))
    as [_|Hno]; [done|].
  exfalso. apply Hno. rewrite Htok, Hexp. split; [done|lia].
Qed.

Lemma fetched_page_other (e : Env)
    (res : option FetchResult * RedditAPI * Env) :
  (∀ posts cursor, res.1.1 ≠ Some (posts, cursor, None)) →
  fetched_page e res.
Proof. intros Hne posts cursor Heq. now apply Hne in Heq. Qed.

Lemma fetched_page_prefix (e e1 : Env)
    (res : option FetchResult * RedditAPI * Env) :
  adds_no_GET e e1 → fetched_page e1 res → fetched_page e res.
Proof.
  intros (l1 & H1 & F1) Hres posts cursor Heq.
  destruct (Hres posts cursor Heq)
    as (evs & req & resp & page & Ht & Hf & Hrest).
  exists (evs ++ l1), req, resp, page. split; [|split]; [| |exact Hrest].
  - now rewrite Ht, H1, app_assoc.
  - now rewrite List.filter_app, F1, app_nil_r.
Qed.

Lemma bind_fetched_page {A} (m : M A)
    (k : A → M (option FetchResult * RedditAPI)) (e : Env) :
  adds_no_GET e (m e).2 →
  (∀ a e1, fetched_page e1 (k a e1)) →
  fetched_page e (bind m k e).
Proof.
  intros Hm Hk. unfold bind. destruct (m e) as [a e1]. cbn in Hm.
  eapply fetched_page_prefix; [exact Hm|apply Hk].
Qed.

Lemma FetchPosts_fetched_page (fuel : nat) (r : RedditAPI)
    (subreddit : string) (limit : Z) (after : string) (e : Env) :
  fetched_page e (FetchPosts fuel r subreddit limit after e).
Proof.
  revert r limit e. induction fuel as [|fuel IH]; intros r limit e.
  { now apply fetched_page_other. }
  cbn [FetchPosts].
  apply bind_fetched_page; [apply authenticate_adds_no_GET|].
  intros [[err|] r1] e1; [now apply fetched_page_other|].
  apply bind_fetched_page; [apply TakeWithTimeout_adds_no_GET|].
  intros [[] tb] e2; cbn [negb].
  2:{ apply bind_fetched_page; [apply log_adds_no_GET|]. intros _ e3.
      apply bind_fetched_page; [apply time_Sleep_adds_no_GET|].
      intros _ e4. apply IH. }
  apply bind_fetched_page; [apply log_adds_no_GET|]. intros _ e3.
  unfold http_NewRequest.
  destruct (url_parses _); [|now apply fetched_page_other].
  unfold bind at 1.
  match goal with
  | |- context [http_Do ?req e3] => set (request := req)
  end.
  assert (Hget : Method request = "GET") by reflexivity.
  clearbody request.
  pose proof (http_Do_trace request e3) as Htrace.
  destruct (http_Do request e3) as [[resp|] e4]; cbn [fst snd] in Htrace;
    [|now apply fetched_page_other].
  unfold bind at 1.
  match goal with
  | |- context [updateRateLimits resp ?r0 e4] =>
      destruct (updateRateLimits_world resp r0 e4)
        as (_ & _ & (evs & Ht & Hf))
  end.
  destruct (updateRateLimits resp _ e4) as [r2 e5]. cbn [snd] in Ht.
  destruct (decide (StatusCode resp ≠ 200)) as [|Hok].
  { apply fetched_page_other. intros posts cursor.
    unfold bind. now destruct (log _ _ e5). }
  destruct (json_decode_listing (Body resp)) as [page|] eqn:Hpage;
    [|now apply fetched_page_other].
  intros posts cursor. cbn. intros [= <- <-].
  eexists (_ :: evs ++ [EvDo request (Some resp)]), request, resp, page.
  split; [|split; [|split; [|split; [done|split; done]]]].
  - rewrite Ht, Htrace. cbn. now rewrite <- app_assoc.
  - cbn. rewrite List.filter_app, Hf. cbn.
    now rewrite Hget, bool_decide_eq_true_2.
  - destruct (decide (StatusCode resp = 200)); [done|]. now destruct Hok.
Qed.

(** X14: whenever [FetchPosts] returns without an error, it has sent
    exactly one GET, the answer had status 200 and a body that decodes
    to a listing page, and the result is that page: one post for each of
    its children, in their order and stamped with the time of the
    return, and its [after] cursor (empty when the page has none). *)
Theorem FetchPosts_success_is_page (fuel : nat) (r : RedditAPI)
    (subreddit : string) (limit : Z) (after : string) (e : Env)
    (posts : list Post) (cursor : string) :
  let out := FetchPosts fuel r subreddit limit after e in
  out.1.1 = Some (posts, cursor, None) →
  ∃ req resp page,
    List.filter is_GET (new_events e out.2) = [EvDo req (Some resp)]
    ∧ StatusCode resp = 200
    ∧ json_decode_listing (Body resp) = Some page
    ∧ cursor = rr_After page
    ∧ posts = toPost (clock out.2) <$> rr_Children page.
Proof.
  intros out Hok.
  destruct (FetchPosts_fetched_page fuel r subreddit limit after e
              posts cursor Hok)
    as (evs & req & resp & page & Ht & Hf & Hrest).
  exists req, resp, page. subst out.
  now rewrite (new_events_app evs e _ Ht).
Qed.

End ClientMore.

(** * Configuration *)

Section Config.

Context {libs : utils.Libs}.

Lemma parseSubreddits_loop (parts acc : list string) :
  foldl (λ subreddits part,
           let trimmed := utils.strings_TrimSpace part in
           if decide (trimmed ≠ "") then subreddits ++ [trimmed]
           else subreddits)
        acc parts
  = acc ++ filter (λ name, name ≠ "") (utils.strings_TrimSpace <$> parts).
Proof.
  revert acc. induction parts as [|part parts IH]; intros acc; cbn.
  - now rewrite app_nil_r.
  - rewrite IH. case_decide; [|done]. now rewrite <- app_assoc.
Qed.

(** X15: [parseSubreddits] returns the pieces of its argument between
    commas, trimmed, without the empty ones and in their order; when no
    piece is left, it returns the single name ["golang"]. *)
Theorem parseSubreddits_names (subredditsStr : string) :
  let names :=
    filter (λ name, name ≠ "")
      (utils.strings_TrimSpace <$> utils.strings_Split subredditsStr ",") in
  utils.parseSubreddits subredditsStr
  = if decide (names = []) then ["golang"] else names.
Proof.
  intros names. unfold utils.parseSubreddits.
  rewrite parseSubreddits_loop. cbn [app]. fold names.
  destruct names as [|name rest]; cbn; [done|].
  now case_decide.
Qed.

Lemma parseSubreddits_named (subredditsStr : string) :
  utils.parseSubreddits subredditsStr ≠ []
  ∧ Forall (λ name, name ≠ "") (utils.parseSubreddits subredditsStr).
Proof.
  unfold utils.parseSubreddits. rewrite parseSubreddits_loop. cbn [app].
  set (names := filter _ _).
  assert (Hall : Forall (λ name, name ≠ "") names).
  { apply Forall_forall. intros name Hin.
    now apply list_elem_of_filter in Hin as [Hne _]. }
  destruct names as [|name rest]; cbn.
  - split; [done|]. now repeat constructor.
  - split; [done|exact Hall].
Qed.

(** X16: whatever its argument, [parseSubreddits] returns at least one
    name, and none of the names it returns is empty. *)
Theorem parseSubreddits_never_empty (subredditsStr : string) :
  utils.parseSubreddits subredditsStr ≠ []
  ∧ Forall (λ name, name ≠ "") (utils.parseSubreddits subredditsStr).
Proof. apply parseSubreddits_named. Qed.

Lemma getEnvAsInt_in_int64 (environ : gmap string string) (key : string)
    (defaultValue : Z) :
  in_int64 defaultValue → in_int64 (utils.getEnvAsInt environ key defaultValue).
Proof.
  intros Hd. unfold utils.getEnvAsInt.
  destruct (Atoi _) as [n|] eqn:Hn; [|done].
  now apply Atoi_in_int64 in Hn.
Qed.

(** X17: a configuration that [LoadConfig] returns has a client id, a
    client secret and a user agent that are not empty, at least one
    subreddit and no empty subreddit name, and a polling interval of at
    least 1 that fits a 64-bit [int]. *)
Theorem LoadConfig_valid (envPath : string) (environ : gmap string string)
    (e : Env) (config : utils.Config) :
  (utils.LoadConfig envPath environ e).1 = inl config →
  utils.ClientID (utils.Reddit config) ≠ ""
  ∧ utils.ClientSecret (utils.Reddit config) ≠ ""
  ∧ utils.UserAgent (utils.Reddit config) ≠ ""
  ∧ utils.Subreddits (utils.Reddit config) ≠ []
  ∧ Forall (λ name, name ≠ "") (utils.Subreddits (utils.Reddit config))
  ∧ 1 <= utils.PollingInterval (utils.Reddit config) <= max_int64.
Proof.
  unfold utils.LoadConfig.
  destruct (utils.godotenv_Load _ environ) as [environ'|]; [|done].
  destruct (utils.validateConfig _) as [err|] eqn:Hvalid; [done|].
  unfold bind. cbn. intros [= <-]. cbn.
  unfold utils.validateConfig in Hvalid. cbn in Hvalid.
  destruct (decide (utils.getEnv environ' "REDDIT_CLIENT_ID" "" = ""));
    [done|].
  destruct (decide (utils.getEnv environ' "REDDIT_CLIENT_SECRET" "" = ""));
    [done|].
  destruct (decide (utils.getEnv environ' "REDDIT_USER_AGENT" "" = ""));
    [done|].
  destruct (decide (length _ = 0%nat)); [done|].
  destruct (decide (_ < 1)) as [|Hpoll]; [done|].
  destruct (parseSubreddits_named
              (utils.getEnv environ' "REDDIT_SUBREDDITS" "golang"))
    as [Hne Hall].
  destruct (getEnvAsInt_in_int64 environ' "REDDIT_POLLING_INTERVAL" 60)
    as [_ Hmax]; [done|].
  repeat split; try done. lia.
Qed.

(** X18: [LoadConfig] never returns the error for missing subreddits:
    the list that [validateConfig] tests comes from [parseSubreddits]
    and is never empty. *)
Theorem LoadConfig_never_ErrSubreddits (envPath : string)
    (environ : gmap string string) (e : Env) :
  (utils.LoadConfig envPath environ e).1 ≠ inr utils.ErrSubreddits.
Proof.
  unfold utils.LoadConfig.
  destruct (utils.godotenv_Load _ environ) as [environ'|]; [|done].
  destruct (utils.validateConfig _) as [err|] eqn:Hvalid;
    [|unfold bind; now cbn].
  cbn. intros [= ->].
  unfold utils.validateConfig in Hvalid. cbn in Hvalid.
  destruct (parseSubreddits_named
              (utils.getEnv environ' "REDDIT_SUBREDDITS" "golang"))
    as [Hne _].
  destruct (decide (utils.getEnv environ' "REDDIT_CLIENT_ID" "" = ""));
    [done|].
  destruct (decide (utils.getEnv environ' "REDDIT_CLIENT_SECRET" "" = ""));
    [done|].
  destruct (decide (utils.getEnv environ' "REDDIT_USER_AGENT" "" = ""));
    [done|].
  destruct (decide (length _ = 0%nat)) as [Hlen|_].
  { now apply length_zero_iff_nil in Hlen. }
  destruct (decide (_ < 1)); [done|].
  destruct (decide (_ ∧ _)); [|done].
  now destruct (utils.os_MkdirAll _).
Qed.

End Config.

(** * The collector *)

Section Stats.

Context {rt : GoRuntime}.

Lemma highestUpvoted_scan (posts before after : list Post) (h : Post) :
  Forall (λ p, Upvotes p < Upvotes h) before →
  Forall (λ p, Upvotes p <= Upvotes h) after →
  ∃ before' after',
    (before ++ h :: after) ++ posts
    = before' ++ stats.highestUpvoted h posts :: after'
    ∧ Forall (λ p, Upvotes p < Upvotes (stats.highestUpvoted h posts)) before'
    ∧ Forall (λ p, Upvotes p <= Upvotes (stats.highestUpvoted h posts)) after'.
Proof.
  revert before after h.
  induction posts as [|post posts IH]; intros before after h Hb Ha.
  - exists before, after. now rewrite app_nil_r.
  - unfold stats.highestUpvoted. cbn [foldl].
    fold (stats.highestUpvoted
            (if decide (Upvotes post > Upvotes h) then post else h) posts).
    destruct (decide (Upvotes post > Upvotes h)) as [Hgt|Hle].
    + destruct (IH (before ++ h :: after) [] post) as (b & a & Heq & Hb' & Ha').
      * apply Forall_app. split.
        -- eapply Forall_impl; [exact Hb|]. cbn. intros p Hp. lia.
        -- constructor; [lia|].
           eapply Forall_impl; [exact Ha|]. cbn. intros p Hp. lia.
      * constructor.
      * exists b, a. split; [|done].
        rewrite <- Heq, <- (app_assoc (before ++ h :: after)). reflexivity.
    + destruct (IH before (after ++ [post]) h) as (b & a & Heq & Hb' & Ha').
      * done.
      * apply Forall_app. split; [done|]. constructor; [lia|constructor].
      * exists b, a. split; [|done].
        rewrite <- Heq, <- !app_assoc. cbn [app].
        now rewrite <- app_assoc.
Qed.

(** X19: the post that [updateStatistics] reports for a subreddit is
    the first of its posts, in the order the storage gave them, that no
    other post beats: every post before it has strictly fewer upvotes,
    every post after it at most as many. *)
Theorem highestUpvoted_first_maximum (first : Post) (rest : list Post) :
  let posts := first :: rest in
  let highest := stats.highestUpvoted first posts in
  ∃ before after,
    posts = before ++ highest :: after
    ∧ Forall (λ p, Upvotes p < Upvotes highest) before
    ∧ Forall (λ p, Upvotes p <= Upvotes highest) after.
Proof.
  intros posts highest.
  assert (Hstep : highest = stats.highestUpvoted first rest).
  { subst highest posts. unfold stats.highestUpvoted. cbn [foldl].
    destruct (decide (Upvotes first > Upvotes first)); [lia|done]. }
  rewrite Hstep.
  apply (highestUpvoted_scan rest [] [] first); constructor.
Qed.

Lemma subredditStatsLoop_lookup (database : stats.Database)
    (subs : list string) (acc : gmap string stats.SubredditStats) (e : Env)
    (sr : string) :
  (stats.subredditStatsLoop database subs acc e).1 !! sr
  = if decide (sr ∈ subs)
    then match subredditSummary database sr with
         | Some st => Some st
         | None => acc !! sr
         end
    else acc !! sr.
Proof.
  revert acc e. induction subs as [|sub subs IH]; intros acc e.
  - cbn. destruct (decide (sr ∈ [])) as [Hin|_]; [|done].
    now apply elem_of_nil in Hin.
  - cbn [stats.subredditStatsLoop].
    assert (Hskip : ∀ e',
      subredditSummary database sub = None →
      (stats.subredditStatsLoop database subs acc e').1 !! sr
      = if decide (sr ∈ sub :: subs)
        then match subredditSummary database sr with
             | Some st => Some st
             | None => acc !! sr
             end
        else acc !! sr).
    { intros e' Hnone. rewrite IH.
      destruct (decide (sr ∈ subs)) as [Hin|Hout],
               (decide (sr ∈ sub :: subs)) as [Hin'|Hout'];
        rewrite ?elem_of_cons in *; try tauto.
      destruct Hin' as [->|?]; [|tauto]. now rewrite Hnone. }
    pose proof (eq_refl (subredditSummary database sub)) as Hsum.
    unfold subredditSummary at 2 in Hsum.
    destruct (stats.GetPostsBySubreddit database sub) as [[|first rest]|].
    + now apply Hskip.
    + rewrite IH.
      destruct (decide (sr ∈ subs)) as [Hin|Hout],
               (decide (sr ∈ sub :: subs)) as [Hin'|Hout'];
        rewrite ?elem_of_cons in *; try tauto.
      * destruct (subredditSummary database sr) eqn:Hsr; [done|].
        rewrite lookup_insert_ne; [done|]. intros <-. congruence.
      * destruct Hin' as [->|?]; [|tauto].
        now rewrite Hsum, lookup_insert_eq.
      * rewrite lookup_insert_ne; [done|]. intros <-. tauto.
    + unfold bind. cbn [log record]. now apply Hskip.
Qed.

(** X20: when the three global queries succeed, the snapshot that
    [updateStatistics] publishes has an entry for a subreddit exactly
    when the subreddit is configured and the storage returned at least
    one post for it; the entry counts those posts and carries the post
    found by the scan.  A subreddit whose query fails or finds nothing
    has no entry. *)
Theorem updateStatistics_subreddit_entries (database : stats.Database)
    (c : stats.Collector) (e : Env) (topPosts : list Post)
    (topUsers : gmap string Z) (total : Z) (sr : string)
    (st : stats.SubredditStats) :
  stats.GetTopPostsByUpvotes database (stats.topPostsLimit c)
  = Some topPosts →
  stats.GetTopUsersByPostCount database (stats.topUsersLimit c)
  = Some topUsers →
  stats.GetTotalPosts database = Some total →
  let c' := (stats.updateStatistics database c e).1 in
  stats.SubredditStatsOf (stats.stats c') !! sr = Some st
  ↔ sr ∈ stats.subreddits c
    ∧ ∃ first rest,
        stats.GetPostsBySubreddit database sr = Some (first :: rest)
        ∧ st = {| stats.PostCount := Z.of_nat (S (length rest));
                  stats.HighestUpvotedPost :=
                    stats.highestUpvoted first (first :: rest) |}.
Proof.
  intros Hposts Husers Htotal c'. subst c'.
  unfold stats.updateStatistics. rewrite Hposts, Husers, Htotal.
  unfold bind at 1.
  pose proof (subredditStatsLoop_lookup database (stats.subreddits c) ∅ e sr)
    as Hlook.
  destruct (stats.subredditStatsLoop database (stats.subreddits c) ∅ e)
    as [entries e1].
  cbn [fst] in Hlook. cbn. rewrite Hlook, lookup_empty.
  unfold subredditSummary.
  destruct (decide (sr ∈ stats.subreddits c)) as [Hin|Hout].
  - destruct (stats.GetPostsBySubreddit database sr) as [[|first rest]|].
    + split; [done|]. now intros (_ & first & rest & ? & _).
    + split.
      * intros [= <-]. split; [done|]. now exists first, rest.
      * intros (_ & first' & rest' & [= <- <-] & ->). done.
    + split; [done|]. now intros (_ & first & rest & ? & _).
  - split; [done|]. now intros [? _].
Qed.

(** X21: [updateStatistics] publishes all or nothing: when one of the
    three global queries fails, the collector is left as it was.  In
    every case the subreddits, the cursors, the polling interval, the
    count of processed posts and the start time are unchanged. *)
Theorem updateStatistics_all_or_nothing (database : stats.Database)
    (c : stats.Collector) (e : Env) :
  let c' := (stats.updateStatistics database c e).1 in
  (stats.GetTopPostsByUpvotes database (stats.topPostsLimit c) = None
   ∨ stats.GetTopUsersByPostCount database (stats.topUsersLimit c) = None
   ∨ stats.GetTotalPosts database = None →
   c' = c)
  ∧ stats.subreddits c' = stats.subreddits c
  ∧ stats.paginationKeys c' = stats.paginationKeys c
  ∧ stats.pollingInterval c' = stats.pollingInterval c
  ∧ stats.processedPostCount c' = stats.processedPostCount c
  ∧ stats.StartTime (stats.stats c') = stats.StartTime (stats.stats c)
  ∧ stats.ProcessedPostCount (stats.stats c')
    = stats.ProcessedPostCount (stats.stats c).
Proof.
  intros c'. subst c'. unfold stats.updateStatistics.
  destruct (stats.GetTopPostsByUpvotes _ _) as [topPosts|];
    [|now repeat split].
  destruct (stats.GetTopUsersByPostCount _ _) as [topUsers|];
    [|now repeat split].
  destruct (stats.GetTotalPosts _) as [total|]; [|now repeat split].
  unfold bind.
  destruct (stats.subredditStatsLoop _ _ _ _) as [entries e1]. cbn.
  split; [|done]. now intros [|[|]].
Qed.

Lemma reset_lookup (names : list string) (keys : gmap string string)
    (sr : string) :
  foldr (λ subreddit keys, <[subreddit := ""]> keys) keys names !! sr
  = if decide (sr ∈ names) then Some "" else keys !! sr.
Proof.
  induction names as [|name names IH]; cbn [foldr].
  - destruct (decide (sr ∈ [])) as [Hin|_]; [|done].
    now apply elem_of_nil in Hin.
  - destruct (decide (sr = name)) as [->|Hne].
    + rewrite lookup_insert_eq.
      destruct (decide (name ∈ name :: names)) as [_|Hout]; [done|].
      rewrite elem_of_cons in Hout. tauto.
    + rewrite lookup_insert_ne, IH by done.
      destruct (decide (sr ∈ names)) as [Hin|Hout],
               (decide (sr ∈ name :: names)) as [Hin'|Hout'];
        rewrite ?elem_of_cons in *; tauto || done.
Qed.

Lemma resetPaginationKeys_lookup (c : stats.Collector) (e : Env)
    (sr : string) :
  stats.paginationKeys (stats.resetPaginationKeys c e).1 !! sr
  = (λ _, "") <$> stats.paginationKeys c !! sr.
Proof.
  unfold stats.resetPaginationKeys, bind. cbn. rewrite reset_lookup.
  destruct (stats.paginationKeys c !! sr) as [cursor|] eqn:Hlook.
  - rewrite decide_True; [done|].
    apply list_elem_of_fmap. exists (sr, cursor). split; [done|].
    now apply elem_of_map_to_list.
  - rewrite decide_False; [done|].
    intros ([name cursor] & -> & Hin)%list_elem_of_fmap.
    apply elem_of_map_to_list in Hin. cbn in Hlook. congruence.
Qed.

(** X22: after [resetPaginationKeys] the cursor read for any subreddit
    is the empty one; the subreddits that had a cursor are the same as
    before, and nothing else of the collector changes. *)
Theorem resetPaginationKeys_clears (c : stats.Collector) (e : Env)
    (sr : string) :
  let c' := (stats.resetPaginationKeys c e).1 in
  default "" (stats.paginationKeys c' !! sr) = ""
  ∧ (is_Some (stats.paginationKeys c' !! sr)
     ↔ is_Some (stats.paginationKeys c !! sr))
  ∧ stats.subreddits c' = stats.subreddits c
  ∧ stats.stats c' = stats.stats c
  ∧ stats.pollingInterval c' = stats.pollingInterval c
  ∧ stats.processedPostCount c' = stats.processedPostCount c.
Proof.
  intros c'. subst c'. rewrite resetPaginationKeys_lookup.
  split; [|split].
  - now destruct (stats.paginationKeys c !! sr).
  - now rewrite fmap_is_Some.
  - unfold stats.resetPaginationKeys, bind. cbn. done.
Qed.

Lemma Qc_of_Z_mul (a b : Z) : Qc_of_Z (a * b) = (Qc_of_Z a * Qc_of_Z b)%Qc.
Proof.
  apply Qc_is_canon. qc_unfold. now rewrite inject_Z_mult.
Qed.

Lemma Qc_trunc_ratio (a b : Z) :
  0 <= a → 0 < b → Qc_trunc (Qc_of_Z a / Qc_of_Z b) = a / b.
Proof.
  intros Ha Hb.
  assert (Hval : (this (Qc_of_Z a / Qc_of_Z b)%Qc == inject_Z a / inject_Z b)%Q).
  { unfold Qcdiv, Qcmult, Qcinv. cbn [this Q2Qc Qc_of_Z].
    now rewrite !Qred_correct. }
  assert (Hpos : (0 <= this (Qc_of_Z a / Qc_of_Z b)%Qc)%Q).
  { rewrite Hval. apply Qle_shift_div_l.
    - change 0%Q with (inject_Z 0). now rewrite <- Zlt_Qlt.
    - rewrite Qmult_0_l. change 0%Q with (inject_Z 0). now rewrite <- Zle_Qle. }
  rewrite Zdiv_Qdiv, <- (Qfloor_comp _ _ Hval).
  unfold Qc_trunc, Qfloor. destruct (this (Qc_of_Z a / Qc_of_Z b)%Qc) as [n d].
  cbn in *. apply Z.quot_div_nonneg; [|lia].
  unfold Qle in Hpos. cbn in Hpos. lia.
Qed.

Lemma newInterval_value (n : Z) :
  n <= 1000000000 →
  stats.newInterval n = Z.max n 1 * 12000000000 / 19.
Proof.
  intros Hn. unfold stats.newInterval.
  set (k := Z.max n 1).
  assert (Hrate :
    (if decide (n > 1)
     then (float64_of_int 1000 / float64_of_int 600 * Q2Qc (95 # 100)
           / float64_of_int n)%Qc
     else (float64_of_int 1000 / float64_of_int 600 * Q2Qc (95 # 100))%Qc)
    = (Qc_of_Z 19 / Qc_of_Z 12 / Qc_of_Z k)%Qc).
  { replace (float64_of_int 1000 / float64_of_int 600 * Q2Qc (95 # 100))%Qc
      with (Qc_of_Z 19 / Qc_of_Z 12)%Qc by now apply Qc_is_canon.
    destruct (decide (n > 1)) as [Hgt|Hle].
    - unfold float64_of_int, k. now rewrite Z.max_l by lia.
    - unfold k. rewrite Z.max_r by lia.
      replace (Qc_of_Z 1) with 1%Qc by now apply Qc_is_canon.
      field. split; discriminate. }
  rewrite Hrate.
  assert (Hk : Qc_of_Z k ≠ 0%Qc).
  { apply Qc_pos_nonzero, (Qc_of_Z_lt 0 k). lia. }
  assert (H19 : Qc_of_Z 19 ≠ 0%Qc) by discriminate.
  assert (H12 : Qc_of_Z 12 ≠ 0%Qc) by discriminate.
  unfold float64_div.
  destruct (decide (Qc_of_Z 19 / Qc_of_Z 12 / Qc_of_Z k = 0)%Qc) as [Hz|_].
  { exfalso. revert Hz. apply Qc_pos_nonzero. unfold Qcdiv.
    apply Qcmult_pos_pos; [reflexivity|].
    apply Qcinv_pos, (Qc_of_Z_lt 0 k). lia. }
  cbn [fmap option_fmap option_map].
  assert (Hq : (1 / (Qc_of_Z 19 / Qc_of_Z 12 / Qc_of_Z k)
                * float64_of_int Second)%Qc
               = (Qc_of_Z (k * 12000000000) / Qc_of_Z 19)%Qc).
  { rewrite Qc_of_Z_mul. unfold float64_of_int, Second.
    replace (Qc_of_Z 12000000000) with (Qc_of_Z 12 * Qc_of_Z 1000000000)%Qc
      by now apply Qc_is_canon.
    field. repeat split; done || discriminate. }
  rewrite Hq. unfold int64_of_float64.
  rewrite Qc_trunc_ratio by lia.
  rewrite decide_True; [done|].
  assert (Hrange : 1 <= k <= 1000000000) by lia. clearbody k.
  unfold in_int64.
  change min_int64 with (-9223372036854775808).
  change max_int64 with 9223372036854775807.
  split.
  - transitivity 0; [lia|]. apply Z.div_pos; lia.
  - apply Z.div_le_upper_bound; lia.
Qed.
(** X23: the interval that the adjustment goroutine of [Start] computes
    is 631578947 ns for at most one subreddit, and for [n] subreddits
    lies between [n] times 631578947 ns and [n] times 631578948 ns: it
    is positive and grows with the number of subreddits. *)
Theorem newInterval_bounds (n : Z) :
  n <= 1000000000 →
  (n <= 1 → stats.newInterval n = 631578947)
  ∧ Z.max n 1 * 631578947 <= stats.newInterval n <= Z.max n 1 * 631578948.
Proof.
  intros Hn. rewrite newInterval_value by done.
  split.
  - intros Hle. now rewrite Z.max_r by lia.
  - assert (Hk : 1 <= Z.max n 1) by lia.
    generalize dependent (Z.max n 1). intros k Hk. split.
    + apply Z.div_le_lower_bound; lia.
    + apply Z.div_le_upper_bound; lia.
Qed.

Lemma intervalChanged_true_iff (old new : Duration) :
  stats.intervalChanged old new = true
  ↔ old = 0
    ∨ (Qc_of_Z (Z.quot old 4)
       < stats.math_Abs (Qc_of_Z (wrap64 (new - old))))%Qc.
Proof. unfold stats.intervalChanged. now rewrite bool_decide_eq_true. Qed.

(** X24: once the main loop has adopted the interval computed for [n]
    subreddits, the goroutine that computes it again does not send it
    again: the polling interval settles after one adjustment. *)
Theorem intervalChanged_settles (n : Z) :
  n <= 1000000000 →
  stats.intervalChanged (stats.newInterval n) (stats.newInterval n) = false.
Proof.
  intros Hn. rewrite newInterval_value by done.
  assert (Hpos : 0 < Z.max n 1 * 12000000000 / 19).
  { apply Z.div_str_pos. lia. }
  generalize dependent (Z.max n 1 * 12000000000 / 19). intros d Hpos.
  apply not_true_is_false. rewrite intervalChanged_true_iff.
  intros [Hzero|Hfar]; [lia|].
  rewrite Z.sub_diag in Hfar. change (wrap64 0) with 0 in Hfar.
  unfold stats.math_Abs in Hfar.
  destruct (decide (Qc_of_Z 0 < 0)%Qc) as [Hneg|_]; [done|].
  apply Qclt_not_le in Hfar. apply Hfar, Qc_of_Z_le.
  apply Z.quot_pos; lia.
Qed.

(** X25: a collector made by [NewCollector] with a polling interval of
    [p] seconds, [p] at least 1 as [validateConfig] demands, and at most
    one subreddit has its interval replaced at the first adjustment:
    the computed interval differs from the configured one by more than
    a quarter of it. *)
Theorem NewCollector_interval_replaced (subs : list string) (p : Z) (e : Env) :
  1 <= p <= 9223372036 →
  (length subs <= 1)%nat →
  let c := (stats.NewCollector subs p e).1 in
  stats.intervalChanged
    (stats.pollingInterval c)
    (stats.newInterval (Z.of_nat (length (stats.subreddits c)))) = true.
Proof.
  intros Hp Hlen c. subst c. cbn.
  rewrite newInterval_value by lia.
  rewrite Z.max_r by lia. change (1 * 12000000000 / 19) with 631578947.
  assert (Hold : wrap64 (p * Second) = p * 1000000000).
  { unfold wrap64, Second.
    change (2 ^ 63) with 9223372036854775808.
    change (2 ^ 64) with 18446744073709551616.
    rewrite Z.mod_small; lia. }
  rewrite Hold.
  assert (Hdiff : wrap64 (631578947 - p * 1000000000)
                  = 631578947 - p * 1000000000).
  { unfold wrap64.
    change (2 ^ 63) with 9223372036854775808.
    change (2 ^ 64) with 18446744073709551616.
    rewrite Z.mod_small; lia. }
  apply intervalChanged_true_iff. right. rewrite Hdiff.
  unfold stats.math_Abs.
  destruct (decide (Qc_of_Z (631578947 - p * 1000000000) < 0)%Qc)
    as [_|Hnonneg].
  - replace (- Qc_of_Z (631578947 - p * 1000000000))%Qc
      with (Qc_of_Z (p * 1000000000 - 631578947)).
    + apply Qc_of_Z_lt.
      assert (Z.quot (p * 1000000000) 4 = p * 250000000) as ->; [|lia].
      replace (p * 1000000000) with (p * 250000000 * 4) by lia.
      now apply Z.quot_mul.
    + replace (p * 1000000000 - 631578947)
        with (- (631578947 - p * 1000000000)) by lia.
      apply Qc_is_canon. qc_unfold. now rewrite inject_Z_opp.
  - exfalso. apply Hnonneg. apply (Qc_of_Z_lt _ 0). lia.
Qed.

(** The shape of a run of [fetchSubreddit]: log lines, the call of
    [FetchPosts] with page size 100 and the stored cursor, log lines. *)
Lemma fetchSubreddit_run (fuel : nat) (c : stats.Collector) (r : RedditAPI)
    (sr : string) (e : Env) :
  let key := default "" (stats.paginationKeys c !! sr) in
  let out := stats.fetchSubreddit fuel c r sr e in
  ∃ e0 before after,
    let res := FetchPosts fuel r sr 100 key e0 in
    trace e0 = before ++ trace e
    ∧ List.filter is_GET before = []
    ∧ trace out.2 = after ++ trace res.2
    ∧ List.filter is_GET after = []
    ∧ clock out.2 = clock res.2
    ∧ out.1 = match res.1.1 with
              | Some (posts, next, None) =>
                  (Some posts,
                   stats.set_paginationKeys
                     (<[sr := next]> (stats.paginationKeys c)) c,
                   res.1.2)
              | _ => (None, c, res.1.2)
              end.
Proof.
  intros key out.
  assert (Hout : out = stats.fetchSubreddit fuel c r sr e) by reflexivity.
  clearbody out. unfold stats.fetchSubreddit, bind in Hout.
  cbn [log record clock oversleep network trace] in Hout. fold key in Hout.
  match type of Hout with
  | context [FetchPosts fuel r sr 100 key ?env] =>
      exists env, (take 2 (trace env)); set (e0 := env) in *
  end.
  cbn zeta.
  destruct (FetchPosts fuel r sr 100 key e0) as [[res r1] e1].
  cbn [fst snd].
  destruct res as [[[posts next] [err|]]|]; subst out.
  - exists []. now repeat split.
  - eexists [_]. now repeat split.
  - exists []. now repeat split.
Qed.

Lemma fetchSubreddit_GETs (fuel : nat) (c : stats.Collector) (r : RedditAPI)
    (sr : string) (e : Env) :
  let out := stats.fetchSubreddit fuel c r sr e in
  List.filter is_GET (new_events e out.2) = []
  ∨ ∃ req reply,
      List.filter is_GET (new_events e out.2) = [EvDo req reply]
      ∧ URL req
        = fetch_url sr 100 (default "" (stats.paginationKeys c !! sr)).
Proof.
  intros out.
  destruct (fetchSubreddit_run fuel c r sr e)
    as (e0 & before & after & Hbefore & Fbefore & Hafter & Fafter & _).
  fold out in Hafter.
  destruct (FetchPosts_exchange fuel r sr 100
              (default "" (stats.paginationKeys c !! sr)) e0)
    as (evs & Htrace & Hcases).
  assert (Hall : trace out.2 = (after ++ evs ++ before) ++ trace e).
  { now rewrite Hafter, Htrace, Hbefore, <- !app_assoc. }
  rewrite (new_events_app _ e out.2 Hall), !List.filter_app.
  rewrite Fafter, Fbefore, app_nil_r. cbn [app].
  destruct Hcases as [Hnone|(req & reply & Hone & Hurl & _)].
  - now left.
  - right. now exists req, reply.
Qed.

(** X26: what [fetchSubreddit] does to the cursors.  When it returns
    after an error the collector is as before, so the next poll asks for
    the same page again.  When it passes posts on, it has sent exactly
    one GET, answered with status 200 and a listing that decodes; the
    posts are those of the listing, the cursor of the subreddit is the
    [after] of the listing, and the cursors of the other subreddits are
    untouched. *)
Theorem fetchSubreddit_cursor (fuel : nat) (c : stats.Collector)
    (r : RedditAPI) (sr : string) (e : Env) :
  let out := stats.fetchSubreddit fuel c r sr e in
  let c' := out.1.1.2 in
  match out.1.1.1 with
  | None => c' = c
  | Some posts =>
      ∃ req resp page,
        List.filter is_GET (new_events e out.2) = [EvDo req (Some resp)]
        ∧ StatusCode resp = 200
        ∧ json_decode_listing (Body resp) = Some page
        ∧ posts = toPost (clock out.2) <$> rr_Children page
        ∧ stats.paginationKeys c' !! sr = Some (rr_After page)
        ∧ (∀ other, other ≠ sr →
             stats.paginationKeys c' !! other
             = stats.paginationKeys c !! other)
        ∧ stats.subreddits c' = stats.subreddits c
        ∧ stats.stats c' = stats.stats c
  end.
Proof.
  intros out c'. subst c'.
  destruct (fetchSubreddit_run fuel c r sr e)
    as (e0 & before & after & Hbefore & Fbefore & Hafter & Fafter
        & Hclock & Hout).
  fold out in Hafter, Hclock, Hout.
  pose proof (FetchPosts_fetched_page fuel r sr 100
                (default "" (stats.paginationKeys c !! sr)) e0) as Hpage.
  destruct (FetchPosts fuel r sr 100
              (default "" (stats.paginationKeys c !! sr)) e0)
    as [[res r1] e1].
  cbn [fst snd] in Hafter, Hclock, Hout.
  rewrite Hout.
  destruct res as [[[posts next] [err|]]|]; cbn [fst snd]; try done.
  destruct (Hpage posts next eq_refl)
    as (evs & req & resp & page & Htrace & Hone & Hstatus & Hdecode
        & -> & ->).
  cbn [fst snd] in Htrace.
  exists req, resp, page.
  assert (Hall : trace out.2 = (after ++ evs ++ before) ++ trace e).
  { now rewrite Hafter, Htrace, Hbefore, <- !app_assoc. }
  rewrite (new_events_app _ e out.2 Hall), !List.filter_app.
  rewrite Fafter, Fbefore, Hone, Hclock. cbn.
  repeat split; try done.
  - apply lookup_insert_eq.
  - intros other Hne. now apply lookup_insert_ne.
Qed.

(** X27: every GET that [fetchSubreddit] sends for a subreddit asks for
    pages of 100 posts, after the cursor stored for the subreddit when
    there is a non-empty one and from the newest post otherwise. *)
Theorem fetchSubreddit_request_url (fuel : nat) (c : stats.Collector)
    (r : RedditAPI) (sr : string) (e : Env) (req : Request)
    (reply : option Response) :
  In (EvDo req reply)
     (new_events e (stats.fetchSubreddit fuel c r sr e).2) →
  Method req = "GET" →
  let newest := baseURL +:+ "/r/" +:+ sr +:+ "/new.json?limit=100" in
  URL req =
    match stats.paginationKeys c !! sr with
    | None | Some "" => newest
    | Some cursor => newest +:+ "&after=" +:+ cursor
    end.
Proof.
  intros Hin Hget newest.
  assert (Hf : In (EvDo req reply)
                 (List.filter is_GET
                    (new_events e (stats.fetchSubreddit fuel c r sr e).2))).
  { apply List.filter_In. split; [done|]. cbn.
    now apply bool_decide_eq_true_2. }
  assert (Hurl : URL req
                 = fetch_url sr 100
                     (default "" (stats.paginationKeys c !! sr))).
  { destruct (fetchSubreddit_GETs fuel c r sr e)
      as [Hnone|(req0 & reply0 & Hone & Hurl)].
    - rewrite Hnone in Hf. destruct Hf.
    - rewrite Hone in Hf. destruct Hf as [Heq|[]].
      now inversion Heq; subst. }
  rewrite Hurl. unfold fetch_url.
  destruct (decide (100 <= 0 ∨ 100 > 100)) as [[|]|_]; [lia|lia|].
  destruct (stats.paginationKeys c !! sr) as [cursor|]; cbn [default].
  - destruct (decide (cursor = "")) as [->|Hne]; [done|].
    now destruct cursor.
  - done.
Qed.

(** X28: after [resetPaginationKeys], every GET that [fetchSubreddit]
    sends asks for the newest 100 posts of the subreddit, whatever the
    cursors were before. *)
Theorem fetchSubreddit_after_reset (fuel : nat) (c0 : stats.Collector)
    (e0 : Env) (r : RedditAPI) (sr : string) (e : Env) (req : Request)
    (reply : option Response) :
  let c := (stats.resetPaginationKeys c0 e0).1 in
  In (EvDo req reply)
     (new_events e (stats.fetchSubreddit fuel c r sr e).2) →
  Method req = "GET" →
  URL req = baseURL +:+ "/r/" +:+ sr +:+ "/new.json?limit=100".
Proof.
  intros c Hin Hget.
  assert (Hf : In (EvDo req reply)
                 (List.filter is_GET
                    (new_events e (stats.fetchSubreddit fuel c r sr e).2))).
  { apply List.filter_In. split; [done|]. cbn.
    now apply bool_decide_eq_true_2. }
  assert (Hkey : default "" (stats.paginationKeys c !! sr) = "").
  { subst c. rewrite resetPaginationKeys_lookup.
    now destruct (stats.paginationKeys c0 !! sr). }
  destruct (fetchSubreddit_GETs fuel c r sr e)
    as [Hnone|(req0 & reply0 & Hone & Hurl)].
  - rewrite Hnone in Hf. destruct Hf.
  - rewrite Hone in Hf. destruct Hf as [Heq|[]].
    inversion Heq; subst req0 reply0. rewrite Hurl, Hkey.
    unfold fetch_url.
    now destruct (decide (100 <= 0 ∨ 100 > 100)) as [[|]|_]; [lia|lia|].
Qed.

End Stats.

(** * The theorems above on concrete runs *)

Lemma Take_later_succeeds_witness :
  (Take unitBucket (quiet Second)).1.1 = true.
Proof.
  apply (Take_later_succeeds unitBucket (quiet 0) (quiet Second)).
  - closed_order.
  - closed_order.
  - closed_order.
  - vm_compute. reflexivity.
Defined.





Lemma NewRedditAPI_limiter_ok_witness :
  limiter_ok (NewRedditAPI "id" "secret" "ua" 1 (serving 0 [])).1
  ∧ GetRateLimitStatus (NewRedditAPI "id" "secret" "ua" 1 (serving 0 [])).1
    = (0, 600, 0).
Proof.
  destruct (NewRedditAPI_limiter_ok "id" "secret" "ua" 1 (serving 0 []))
    as (Hok & _ & _ & _ & Hstatus).
  - closed_order.
  - split; [exact Hok|exact Hstatus].
Defined.

Lemma client_keeps_limiter_ok_witness :
  limiter_ok
    (FetchPosts (rt := testRuntime) 1 readyClient "golang" 100 ""
       (serving 0 [(0%N, Some pageReply)])).1.2.
Proof.
  destruct (client_keeps_limiter_ok (rt := testRuntime) 1 readyClient
              "golang" 100 "" (serving 0 [(0%N, Some pageReply)]))
    as [_ Hfetch].
  - split; [reflexivity|]. split; [split; closed_order|closed_order].
  - exact Hfetch.
Defined.

Lemma NewRedditAPI_rate_survives_Update_iff_witness :
  Update 5 300 100
    (rateLimiter (NewRedditAPI "id" "secret" "ua" 100 (quiet 0)).1)
  = rateLimiter (NewRedditAPI "id" "secret" "ua" 100 (quiet 0)).1.
Proof.
  destruct (NewRedditAPI_rate_survives_Update_iff "id" "secret" "ua" 100
              (quiet 0) 5 300 100) as [_ Hback].
  - lia.
  - closed_order.
  - apply Hback. reflexivity.
Defined.

Lemma updateRateLimits_caches_headers_witness :
  GetRateLimitStatus (updateRateLimits limitsReply readyClient (quiet 0)).1
  = (95, 300, 5).
Proof.
  destruct (updateRateLimits_caches_headers limitsReply readyClient (quiet 0))
    as [Hstatus _].
  - left. vm_compute. discriminate.
  - rewrite Hstatus. vm_compute. reflexivity.
Defined.

Lemma authenticate_fetches_token_witness :
  accessToken
    (authenticate (rt := testRuntime) (newClient [(0%N, Some tokenReply)]).1
       (newClient [(0%N, Some tokenReply)]).2).1.2
  = "tok".
Proof.
  destruct (authenticate_fetches_token (rt := testRuntime)
              (newClient [(0%N, Some tokenReply)]).1
              (newClient [(0%N, Some tokenReply)]).2
              0%N tokenReply []
              {| AccessToken := "tok"; ExpiresIn := 3600;
                 TokenType := "bearer" |})
    as (_ & Htoken & _).
  - intros [Hheld _]. now apply Hheld.
  - vm_compute. reflexivity.
  - reflexivity.
  - reflexivity.
  - reflexivity.
  - vm_compute. reflexivity.
  - exact Htoken.
Defined.

Lemma FetchPosts_error_is_empty_witness :
  (FetchPosts (rt := testRuntime) 1 readyClient "golang" 250 ""
     (serving 0 [(0%N, Some busyReply)])).1.1
  = Some ([], "", Some (ErrStatus 503 "busy"))
  ∧ (@nil Post = [] ∧ "" = "").
Proof.
  assert (Hres :
    (FetchPosts (rt := testRuntime) 1 readyClient "golang" 250 ""
       (serving 0 [(0%N, Some busyReply)])).1.1
    = Some ([], "", Some (ErrStatus 503 "busy")))
    by (vm_compute; reflexivity).
  split; [exact Hres|].
  exact (FetchPosts_error_is_empty (rt := testRuntime) 1 readyClient "golang"
           250 "" (serving 0 [(0%N, Some busyReply)]) [] ""
           (ErrStatus 503 "busy") Hres).
Defined.

Lemma FetchPosts_success_is_page_witness :
  ∃ req resp page,
    List.filter is_GET
      (new_events (serving 0 [(0%N, Some pageReply)])
         (FetchPosts (rt := testRuntime) 1 readyClient "golang" 100 ""
            (serving 0 [(0%N, Some pageReply)])).2)
    = [EvDo req (Some resp)]
    ∧ StatusCode resp = 200
    ∧ json_decode_listing (GoRuntime := testRuntime) (Body resp) = Some page
    ∧ "t3_next" = rr_After page
    ∧ [] = toPost (rt := testRuntime)
             (clock (FetchPosts (rt := testRuntime) 1 readyClient "golang"
                       100 "" (serving 0 [(0%N, Some pageReply)])).2)
           <$> rr_Children page.
Proof.
  apply (FetchPosts_success_is_page (rt := testRuntime) 1 readyClient
           "golang" 100 "" (serving 0 [(0%N, Some pageReply)]) [] "t3_next").
  vm_compute. reflexivity.
Defined.

Lemma LoadConfig_valid_witness :
  ∃ config,
    (utils.LoadConfig (libs := utils.testLibs) "" testEnviron (quiet 0)).1
    = inl config
    ∧ utils.Subreddits (utils.Reddit config) ≠ []
    ∧ 1 <= utils.PollingInterval (utils.Reddit config) <= max_int64.
Proof.
  assert (Hload : ∃ config,
    (utils.LoadConfig (libs := utils.testLibs) "" testEnviron (quiet 0)).1
    = inl config).
  { eexists. vm_compute. reflexivity. }
  destruct Hload as [config Hload]. exists config.
  destruct (LoadConfig_valid (libs := utils.testLibs) "" testEnviron
              (quiet 0) config Hload) as (_ & _ & _ & Hsubs & _ & Hpoll).
  now split.
Defined.

Lemma updateStatistics_subreddit_entries_witness :
  stats.SubredditStatsOf
    (stats.stats (stats.updateStatistics testDatabase testCollector
                    (quiet 0)).1)
  !! "golang"
  = Some {| stats.PostCount := 2;
            stats.HighestUpvotedPost := testPost "b" 7 |}.
Proof.
  apply (updateStatistics_subreddit_entries testDatabase testCollector
           (quiet 0) [] ∅ 2 "golang").
  - reflexivity.
  - reflexivity.
  - reflexivity.
  - split; [left|].
    exists (testPost "a" 3), [testPost "b" 7].
    split; vm_compute; reflexivity.
Defined.

Lemma newInterval_bounds_witness :
  3 * 631578947 <= stats.newInterval (rt := testRuntime) 3 <= 3 * 631578948.
Proof.
  destruct (newInterval_bounds (rt := testRuntime) 3) as [_ Hbounds].
  - lia.
  - exact Hbounds.
Defined.

Lemma intervalChanged_settles_witness :
  stats.intervalChanged (stats.newInterval (rt := testRuntime) 3)
    (stats.newInterval (rt := testRuntime) 3) = false.
Proof.
  apply (intervalChanged_settles (rt := testRuntime) 3). lia.
Defined.

Lemma NewCollector_interval_replaced_witness :
  stats.intervalChanged
    (stats.pollingInterval (stats.NewCollector ["golang"] 60 (quiet 0)).1)
    (stats.newInterval (rt := testRuntime) 1) = true.
Proof.
  apply (NewCollector_interval_replaced (rt := testRuntime) ["golang"] 60
           (quiet 0)).
  - lia.
  - reflexivity.
Defined.

Lemma fetchSubreddit_request_url_witness :
  ∃ req reply,
    In (EvDo req reply)
       (new_events (serving 0 [(0%N, Some pageReply)])
          (stats.fetchSubreddit (rt := testRuntime) 1 pagedCollector
             readyClient "golang" (serving 0 [(0%N, Some pageReply)])).2)
    ∧ URL req
      = "https://oauth.reddit.com/r/golang/new.json?limit=100&after=t3_abc".
Proof.
  assert (Hsent : ∃ req reply,
    In (EvDo req reply)
       (new_events (serving 0 [(0%N, Some pageReply)])
          (stats.fetchSubreddit (rt := testRuntime) 1 pagedCollector
             readyClient "golang" (serving 0 [(0%N, Some pageReply)])).2)
    ∧ Method req = "GET").
  { eexists _, _.
    split; [vm_compute; repeat first [left; reflexivity | right]|].
    reflexivity. }
  destruct Hsent as (req & reply & Hin & Hget).
  exists req, reply. split; [exact Hin|].
  rewrite (fetchSubreddit_request_url (rt := testRuntime) 1 pagedCollector
             readyClient "golang" (serving 0 [(0%N, Some pageReply)])
             req reply Hin Hget).
  vm_compute. reflexivity.
Defined.

Lemma fetchSubreddit_after_reset_witness :
  ∃ req reply,
    In (EvDo req reply)
       (new_events (serving 0 [(0%N, Some pageReply)])
          (stats.fetchSubreddit (rt := testRuntime) 1
             (stats.resetPaginationKeys pagedCollector (quiet 0)).1
             readyClient "golang" (serving 0 [(0%N, Some pageReply)])).2)
    ∧ URL req = "https://oauth.reddit.com/r/golang/new.json?limit=100".
Proof.
  assert (Hsent : ∃ req reply,
    In (EvDo req reply)
       (new_events (serving 0 [(0%N, Some pageReply)])
          (stats.fetchSubreddit (rt := testRuntime) 1
             (stats.resetPaginationKeys pagedCollector (quiet 0)).1
             readyClient "golang" (serving 0 [(0%N, Some pageReply)])).2)
    ∧ Method req = "GET").
  { eexists _, _.
    split; [vm_compute; repeat first [left; reflexivity | right]|].
    reflexivity. }
  destruct Hsent as (req & reply & Hin & Hget).
  exists req, reply. split; [exact Hin|].
  rewrite (fetchSubreddit_after_reset (rt := testRuntime) 1 pagedCollector
             (quiet 0) readyClient "golang"
             (serving 0 [(0%N, Some pageReply)]) req reply Hin Hget).
  vm_compute. reflexivity.
Defined.

(** Cases of the repository's tests of [parseSubreddits]. *)
Example parseSubreddits_cases :
  utils.parseSubreddits (libs := utils.testLibs) "AskReddit"
  = ["AskReddit"]
  ∧ utils.parseSubreddits (libs := utils.testLibs)
      "AskReddit, news, programming"
    = ["AskReddit"; "news"; "programming"]
  ∧ utils.parseSubreddits (libs := utils.testLibs)
      "AskReddit,,news,,programming"
    = ["AskReddit"; "news"; "programming"]
  ∧ utils.parseSubreddits (libs := utils.testLibs)
      ",AskReddit,news,programming,"
    = ["AskReddit"; "news"; "programming"]
  ∧ utils.parseSubreddits (libs := utils.testLibs)
      "  AskReddit  ,  news  ,  programming  "
    = ["AskReddit"; "news"; "programming"]
  ∧ utils.parseSubreddits (libs := utils.testLibs) "" = ["golang"].
Proof. vm_compute. done. Qed.
